(** * Rental property calculator: the calculation engine

    A shallow embedding of the calculation code of the
    [RentalPropertyCalculator] component: [generateCashFlowSchedule],
    [calculateResults] and the down-payment conversions of
    [handleInputChange].

    The source computes with JavaScript numbers.  The engine is written once,
    over an interface [Numeric] of the operations it uses, and read at two
    number types:

    - [float], the kernel's binary64 numbers, which is what the code runs on
      (used to evaluate the engine at concrete inputs, bit for bit);
    - [xnum], exact rationals extended with [Infinity], [-Infinity] and [NaN]
      (used for bounds and comparisons; it has no rounding, no overflow or
      underflow and a single zero).

    Statements that only follow the shape of the computation are proved for
    every [Numeric] instance, hence for both.  A statement proved over
    [xnum] carries the hypotheses that keep it true of the doubles as well:
    prices of 1 or more where a product with a tiny price would be rounded,
    amounts far below 2^53 where sums are compared, and margins wider than
    the rounding of the operations.  Where the two readings part, a closed
    evaluation on [float] shows it. *)

From Stdlib Require Import String ZArith QArith Qcanon Qround Lqa Lia List Bool.
From Stdlib Require Import PrimFloat Uint63.
Import ListNotations.

Set Implicit Arguments.

(** ** The numbers of the engine *)

(** The operations on numbers that the source uses: literals, the four
    arithmetic operators, [>], [===], [Math.max], [Math.pow], [Math.round]. *)
Class Numeric (num : Type) : Type := {
  lit : Z -> num;                      (* an integer literal: 0, 1, 12, 20, 30, 100 *)
  lit_1_02 : num;                      (* the literal 1.02 *)
  nadd : num -> num -> num;
  nsub : num -> num -> num;
  nmul : num -> num -> num;
  ndiv : num -> num -> num;
  gtb : num -> num -> bool;            (* a > b *)
  strict_eqb : num -> num -> bool;     (* a === b *)
  Math_max : num -> num -> num;
  Math_pow : num -> num -> num;
  Math_round : num -> num;
  zero_not_gt_zero : gtb (lit 0) (lit 0) = false;        (* 0 > 0 is false *)
  zero_eq_zero : strict_eqb (lit 0) (lit 0) = true       (* 0 === 0 is true *)
}.

Declare Scope num_scope.
Delimit Scope num_scope with num.
Infix "+" := nadd : num_scope.
Infix "-" := nsub : num_scope.
Infix "*" := nmul : num_scope.
Infix "/" := ndiv : num_scope.
Infix ">?" := gtb (at level 70, no associativity) : num_scope.
Infix "===" := strict_eqb (at level 70, no associativity) : num_scope.

(** *** Binary64 *)

Module F64.

Definition of_Z (z : Z) : float :=
  match z with
  | Z0 => PrimFloat.zero
  | Zpos _ => PrimFloat.of_uint63 (Uint63.of_Z z)
  | Zneg p => PrimFloat.opp (PrimFloat.of_uint63 (Uint63.of_Z (Zpos p)))
  end.

(** [Math.max] of two numbers: [NaN] when either is, and [+0] above [-0]. *)
Definition max (a b : float) : float :=
  if PrimFloat.is_nan a || PrimFloat.is_nan b then PrimFloat.nan
  else if PrimFloat.ltb a b then b
  else if PrimFloat.ltb b a then a
  else if PrimFloat.is_zero a then PrimFloat.add a b
  else a.

Definition two52 : float := Eval vm_compute in of_Z (2 ^ 52).
Definition half : float := Eval vm_compute in PrimFloat.div (of_Z 1) (of_Z 2).

(** The integer part of [x] for [0 <= x < 2^52]. *)
Definition floor_small (x : float) : float :=
  let t := PrimFloat.sub (PrimFloat.add x two52) two52 in
  if PrimFloat.ltb x t then PrimFloat.sub t PrimFloat.one else t.

(** [Math.round]: the nearest integer, a tie going up; [-0] for the
    negative numbers that round to zero. *)
Definition round (x : float) : float :=
  if PrimFloat.is_nan x || PrimFloat.is_infinity x || PrimFloat.is_zero x then x
  else if PrimFloat.leb two52 (PrimFloat.abs x) then x
  else if PrimFloat.ltb x PrimFloat.zero then
    let a := PrimFloat.opp x in
    let f := floor_small a in
    PrimFloat.opp (if PrimFloat.ltb half (PrimFloat.sub a f)
                   then PrimFloat.add f PrimFloat.one else f)
  else
    let f := floor_small x in
    if PrimFloat.leb half (PrimFloat.sub x f)
    then PrimFloat.add f PrimFloat.one else f.

Definition one_02 : float :=
  Eval vm_compute in PrimFloat.div (of_Z 102) (of_Z 100).

Section WithPow.
(** [Math.pow] is the host's; its result is not fixed to the last bit by
      the language, so it stays a parameter of the binary64 reading. *)
Variable pow : float -> float -> float.

Definition numeric : Numeric float := {|
    lit := of_Z;
    lit_1_02 := one_02;
    nadd := PrimFloat.add;
    nsub := PrimFloat.sub;
    nmul := PrimFloat.mul;
    ndiv := PrimFloat.div;
    gtb := fun a b => PrimFloat.ltb b a;
    strict_eqb := PrimFloat.eqb;
    Math_max := max;
    Math_pow := pow;
    Math_round := round;
    zero_not_gt_zero := eq_refl;
    zero_eq_zero := eq_refl
  |}.
End WithPow.

End F64.

(** *** Exact numbers with the IEEE special values *)

Inductive xnum : Type :=
| Fin (q : Qc)
| PInf
| NInf
| NaN.

(** The whole number [z] as a rational. *)
Abbreviation Zc z := (Q2Qc (inject_Z z)).

Module X.

Local Open Scope Qc_scope.

Definition of_Z (z : Z) : xnum := Fin (Zc z).

Definition opp (a : xnum) : xnum :=
  match a with
  | Fin q => Fin (- q)
  | PInf => NInf
  | NInf => PInf
  | NaN => NaN
  end.

Definition add (a b : xnum) : xnum :=
  match a, b with
  | NaN, _ | _, NaN => NaN
  | Fin p, Fin q => Fin (p + q)
  | PInf, NInf | NInf, PInf => NaN
  | PInf, _ | _, PInf => PInf
  | NInf, _ | _, NInf => NInf
  end.

Definition sub (a b : xnum) : xnum := add a (opp b).

(** An infinity of the sign of [q], and [NaN] for zero (0 * Infinity). *)
Definition scaled_inf (q : Qc) (pos : bool) : xnum :=
  match q ?= 0 with
  | Eq => NaN
  | Gt => if pos then PInf else NInf
  | Lt => if pos then NInf else PInf
  end.

Definition mul (a b : xnum) : xnum :=
  match a, b with
  | NaN, _ | _, NaN => NaN
  | Fin p, Fin q => Fin (p * q)
  | Fin p, PInf | PInf, Fin p => scaled_inf p true
  | Fin p, NInf | NInf, Fin p => scaled_inf p false
  | PInf, PInf | NInf, NInf => PInf
  | PInf, NInf | NInf, PInf => NInf
  end.

(** Zero carries no sign here: it divides as [+0] does. *)
Definition div (a b : xnum) : xnum :=
  match a, b with
  | NaN, _ | _, NaN => NaN
  | Fin p, Fin q =>
      match q ?= 0 with
      | Eq => scaled_inf p true
      | _ => Fin (p / q)
      end
  | Fin _, (PInf | NInf) => Fin 0
  | PInf, Fin q => match q ?= 0 with Lt => NInf | _ => PInf end
  | NInf, Fin q => match q ?= 0 with Lt => PInf | _ => NInf end
  | (PInf | NInf), (PInf | NInf) => NaN
  end.

Definition ltb (a b : xnum) : bool :=
  match a, b with
  | NaN, _ | _, NaN => false
  | Fin p, Fin q => match p ?= q with Lt => true | _ => false end
  | NInf, (Fin _ | PInf) => true
  | Fin _, PInf => true
  | _, _ => false
  end.

Definition eqb (a b : xnum) : bool :=
  match a, b with
  | Fin p, Fin q => match p ?= q with Eq => true | _ => false end
  | PInf, PInf | NInf, NInf => true
  | _, _ => false
  end.

Definition leb (a b : xnum) : bool := ltb a b || eqb a b.

Definition max (a b : xnum) : xnum :=
  match a, b with
  | NaN, _ | _, NaN => NaN
  | _, _ => if ltb a b then b else a
  end.

(** The nearest whole number, a tie going up: floor (q + 1/2). *)
Definition Qcround (q : Qc) : Qc := Zc (Qfloor (q + (1 # 2))%Q).

(** [Math.round]. *)
Definition round (a : xnum) : xnum :=
  match a with
  | Fin q => Fin (Qcround q)
  | _ => a
  end.

Definition is_finite (a : xnum) : bool :=
  match a with Fin _ => true | _ => false end.

(** A sample [Math.pow] for closed evaluations: exact on whole non-negative
    exponents, which is where the engine calls it when the amortization
    period is a whole number of years.  Elsewhere a rational value need not
    exist and the sample answers [NaN]; no theorem depends on this choice. *)
Definition pow_whole (b e : xnum) : xnum :=
  match b, e with
  | Fin p, Fin q =>
      if ((Qden q =? 1)%positive && (0 <=? Qnum q)%Z)%bool
      then Fin (Q2Qc (Qpower p (Qnum q)))
      else NaN
  | _, _ => NaN
  end.

(** The largest of two rationals, as [max] computes it. *)
Definition Qcmax (p q : Qc) : Qc :=
  match p ?= q with Lt => q | _ => p end.

Section WithPow.
(** [Math.pow] takes real exponents; the exact reading leaves it a
      parameter as well. *)
Variable pow : xnum -> xnum -> xnum.

Definition numeric : Numeric xnum := {|
    lit := of_Z;
    lit_1_02 := Fin (Q2Qc (102 # 100));
    nadd := add;
    nsub := sub;
    nmul := mul;
    ndiv := div;
    gtb := fun a b => ltb b a;
    strict_eqb := eqb;
    Math_max := max;
    Math_pow := pow;
    Math_round := round;
    zero_not_gt_zero := eq_refl;
    zero_eq_zero := eq_refl
  |}.
End WithPow.

End X.

(** ** The data of the calculator *)

Inductive DownPaymentType : Type := amount | percent.

(** The [inputs] state of the component, at its declared type: every field
    but the two selectors is a number.  (The component lets a text field hold
    the empty string while it is being edited; the effect that runs
    [calculateResults] skips the computation then, and on numbers each read
    [typeof x === 'number' ? x : 0] of the source is [x].) *)
Record Inputs (num : Type) : Type := {
  purchasePrice : num;
  downPayment : num;
  downPaymentType : DownPaymentType;
  closingCosts : num;
  renovationCosts : num;
  interestRate : num;
  amortizationPeriod : num;
  term : num;
  monthlyRent : num;
  vacancyRate : num;
  annualRentIncrease : num;
  propertyTaxes : num;
  insurance : num;
  condoFees : num;
  propertyManagement : num;
  maintenance : num;
  utilities : num;
  otherExpenses : num;
  propertyType : option string
}.

(** One year of the projection.  [year] is the loop counter, an integer
    from 1 to 30. *)
Record CashFlowYear (num : Type) : Type := {
  year : Z;
  rentalIncome : num;
  operatingExpenses : num;
  mortgagePayment : num;
  cashFlow : num
}.

(** The [results] state of the component. *)
Record Results (num : Type) : Type := {
  mortgageAmount : num;
  downPaymentPercent : num;
  totalMortgage : num;
  monthlyPayment : num;
  monthlyRentAfterVacancy : num;
  monthlyExpenses : num;
  monthlyCashFlow : num;
  annualCashFlow : num;
  totalMonthlyExpenses : num;
  cashOnCash : num;
  capRate : num;
  grossRentMultiplier : num;
  breakEvenOccupancy : num;
  netOperatingIncome : num;
  expenseRatio : num;
  cashFlowSchedule : list (CashFlowYear num)
}.

(** ** The engine *)

Section Engine.

Context {num : Type} {N : Numeric num}.
Local Open Scope num_scope.

(** *** [generateCashFlowSchedule] *)

(** The monthly mortgage payment computed at the head of
    [generateCashFlowSchedule]. *)
Definition mortgage_payment
    (principal annualInterestRate amortizationYears : num) : num :=
  let monthlyInterestRate := (annualInterestRate / lit 100) / lit 12 in
  let totalPayments := amortizationYears * lit 12 in
  if annualInterestRate === lit 0 then
    principal / totalPayments
  else
    principal *
      (monthlyInterestRate * Math_pow (lit 1 + monthlyInterestRate) totalPayments) /
      (Math_pow (lit 1 + monthlyInterestRate) totalPayments - lit 1).

(** The variables the projection loop updates. *)
Record Projection : Type := {
  annualRent : num;
  annualOperatingExpenses : num;
  schedule : list (CashFlowYear num)
}.

(** The body of the loop [for (let year = 1; year <= 30; year++)]. *)
Definition project_year (annualMortgagePayment annualRentIncrease : num)
    (st : Projection) (year : Z) : Projection :=
  let annualCashFlow :=
    annualRent st - annualOperatingExpenses st - annualMortgagePayment in
  {| schedule :=
       schedule st ++
       [ {| year := year;
            rentalIncome := annualRent st;
            operatingExpenses := annualOperatingExpenses st;
            mortgagePayment := annualMortgagePayment;
            cashFlow := annualCashFlow |} ];
     annualRent := annualRent st * (lit 1 + (annualRentIncrease / lit 100));
     annualOperatingExpenses := annualOperatingExpenses st * lit_1_02 |}.

(** The values [year] takes: 1, 2, ..., 30. *)
Definition projection_years : list Z := map Z.of_nat (seq 1 30).

(** Returns the pair of the source's [{ cashFlowSchedule, monthlyPayment }]. *)
Definition generateCashFlowSchedule
    (principal annualInterestRate amortizationYears
     monthlyRentAfterVacancy monthlyOperatingExpenses annualRentIncrease : num)
  : list (CashFlowYear num) * num :=
  let init :=
    {| schedule := [];
       annualRent := monthlyRentAfterVacancy * lit 12;
       annualOperatingExpenses := monthlyOperatingExpenses * lit 12 |} in
  let monthlyPayment :=
    mortgage_payment principal annualInterestRate amortizationYears in
  let annualMortgagePayment := monthlyPayment * lit 12 in
  let final :=
    fold_left (project_year annualMortgagePayment annualRentIncrease)
              projection_years init in
  (schedule final, monthlyPayment).

(** *** [calculateResults]

    The locals [downPaymentAmount], [minimumDownPayment],
    [actualDownPayment], [monthlyOperatingExpenses] and [initialInvestment]
    of the function are definitions of their own, so that the statements can
    name them.  (The source also computes a stated [downPaymentPercent] next
    to [downPaymentAmount]; nothing reads it.) *)

Definition downPaymentAmount (inputs : Inputs num) : num :=
  match downPaymentType inputs with
  | amount => downPayment inputs
  | percent => (purchasePrice inputs * downPayment inputs) / lit 100
  end.

Definition minimumDownPayment (inputs : Inputs num) : num :=
  let minimumDownPaymentPercent := lit 20 in
  (minimumDownPaymentPercent / lit 100) * purchasePrice inputs.

Definition actualDownPayment (inputs : Inputs num) : num :=
  Math_max (downPaymentAmount inputs) (minimumDownPayment inputs).

Definition monthlyOperatingExpenses (inputs : Inputs num) : num :=
  let monthlyRent := monthlyRent inputs in
  let propertyTaxesMonthly := propertyTaxes inputs / lit 12 in
  let insuranceMonthly := insurance inputs / lit 12 in
  let condoFees := condoFees inputs in
  let propertyManagementFee := monthlyRent * propertyManagement inputs / lit 100 in
  let maintenanceCosts := monthlyRent * maintenance inputs / lit 100 in
  let utilities := utilities inputs in
  let otherExpenses := otherExpenses inputs in
  propertyTaxesMonthly + insuranceMonthly + condoFees +
  propertyManagementFee + maintenanceCosts + utilities + otherExpenses.

Definition initialInvestment (inputs : Inputs num) : num :=
  actualDownPayment inputs + closingCosts inputs + renovationCosts inputs.

Definition calculateResults (inputs : Inputs num) : Results num :=
  let purchasePrice := purchasePrice inputs in
  let actualDownPayment := actualDownPayment inputs in
  let actualDownPaymentPercent := (actualDownPayment / purchasePrice) * lit 100 in
  let mortgageAmount := purchasePrice - actualDownPayment in
  let monthlyRent := monthlyRent inputs in
  let vacancyRate := vacancyRate inputs in
  let monthlyRentAfterVacancy := monthlyRent * (lit 1 - vacancyRate / lit 100) in
  let monthlyOperatingExpenses := monthlyOperatingExpenses inputs in
  let cashFlowData :=
    generateCashFlowSchedule
      mortgageAmount
      (interestRate inputs)
      (amortizationPeriod inputs)
      monthlyRentAfterVacancy
      monthlyOperatingExpenses
      (annualRentIncrease inputs) in
  let monthlyPayment := snd cashFlowData in
  let totalMonthlyExpenses := monthlyOperatingExpenses + monthlyPayment in
  let monthlyCashFlow := monthlyRentAfterVacancy - totalMonthlyExpenses in
  let annualCashFlow := monthlyCashFlow * lit 12 in
  let initialInvestment := initialInvestment inputs in
  let cashOnCash :=
    if initialInvestment >? lit 0
    then (annualCashFlow / initialInvestment) * lit 100
    else lit 0 in
  let annualRentalIncome := monthlyRentAfterVacancy * lit 12 in
  let annualOperatingExpenses := monthlyOperatingExpenses * lit 12 in
  let netOperatingIncome := annualRentalIncome - annualOperatingExpenses in
  let capRate := (netOperatingIncome / purchasePrice) * lit 100 in
  let grossRentMultiplier := purchasePrice / (monthlyRent * lit 12) in
  let expenseRatio :=
    ((monthlyOperatingExpenses * lit 12) / (monthlyRent * lit 12)) * lit 100 in
  let breakEvenOccupancy := (totalMonthlyExpenses / monthlyRent) * lit 100 in
  {| mortgageAmount := mortgageAmount;
     downPaymentPercent := actualDownPaymentPercent;
     totalMortgage := mortgageAmount;
     monthlyPayment := monthlyPayment;
     monthlyRentAfterVacancy := monthlyRentAfterVacancy;
     monthlyExpenses := monthlyOperatingExpenses;
     monthlyCashFlow := monthlyCashFlow;
     annualCashFlow := annualCashFlow;
     totalMonthlyExpenses := totalMonthlyExpenses;
     cashOnCash := cashOnCash;
     capRate := capRate;
     grossRentMultiplier := grossRentMultiplier;
     breakEvenOccupancy := breakEvenOccupancy;
     netOperatingIncome := netOperatingIncome;
     expenseRatio := expenseRatio;
     cashFlowSchedule := fst cashFlowData |}.

End Engine.

(** ** The form handler *)

(** The names of the number fields of [inputs]. *)
Module Key.
Inductive t : Type :=
| purchasePrice | downPayment | closingCosts | renovationCosts
| interestRate | amortizationPeriod | term
| monthlyRent | vacancyRate | annualRentIncrease
| propertyTaxes | insurance | condoFees
| propertyManagement | maintenance | utilities | otherExpenses.

Definition eqb (a b : t) : bool :=
  match a, b with
  | purchasePrice, purchasePrice | downPayment, downPayment
  | closingCosts, closingCosts | renovationCosts, renovationCosts
  | interestRate, interestRate | amortizationPeriod, amortizationPeriod
  | term, term | monthlyRent, monthlyRent | vacancyRate, vacancyRate
  | annualRentIncrease, annualRentIncrease | propertyTaxes, propertyTaxes
  | insurance, insurance | condoFees, condoFees
  | propertyManagement, propertyManagement | maintenance, maintenance
  | utilities, utilities | otherExpenses, otherExpenses => true
  | _, _ => false
  end.
End Key.

(** What [handleInputChange (name, value)] receives.  For a field that holds
    a number the handler stores [Number(value)], the number read from the
    text of the field: this number is the [value] of [SetNumber].  (The empty
    text is stored as it is and stops the recalculation; it is outside the
    number-typed state modelled here.) *)
Inductive Change (num : Type) : Type :=
| SetNumber (name : Key.t) (value : num)
| SetDownPaymentType (value : DownPaymentType)
| SetPropertyType (value : string).

Arguments SetDownPaymentType {num} value.
Arguments SetPropertyType {num} value.

Section Handler.

Context {num : Type} {N : Numeric num}.
Local Open Scope num_scope.

(** [{ ...inputs, [name]: value }] for a number field. *)
Definition set_number (name : Key.t) (value : num) (inputs : Inputs num)
  : Inputs num :=
  let pick k old := if Key.eqb name k then value else old in
  {| purchasePrice := pick Key.purchasePrice (purchasePrice inputs);
     downPayment := pick Key.downPayment (downPayment inputs);
     downPaymentType := downPaymentType inputs;
     closingCosts := pick Key.closingCosts (closingCosts inputs);
     renovationCosts := pick Key.renovationCosts (renovationCosts inputs);
     interestRate := pick Key.interestRate (interestRate inputs);
     amortizationPeriod := pick Key.amortizationPeriod (amortizationPeriod inputs);
     term := pick Key.term (term inputs);
     monthlyRent := pick Key.monthlyRent (monthlyRent inputs);
     vacancyRate := pick Key.vacancyRate (vacancyRate inputs);
     annualRentIncrease := pick Key.annualRentIncrease (annualRentIncrease inputs);
     propertyTaxes := pick Key.propertyTaxes (propertyTaxes inputs);
     insurance := pick Key.insurance (insurance inputs);
     condoFees := pick Key.condoFees (condoFees inputs);
     propertyManagement := pick Key.propertyManagement (propertyManagement inputs);
     maintenance := pick Key.maintenance (maintenance inputs);
     utilities := pick Key.utilities (utilities inputs);
     otherExpenses := pick Key.otherExpenses (otherExpenses inputs);
     propertyType := propertyType inputs |}.

Definition set_downPaymentType (value : DownPaymentType) (inputs : Inputs num)
  : Inputs num :=
  {| purchasePrice := purchasePrice inputs;
     downPayment := downPayment inputs;
     downPaymentType := value;
     closingCosts := closingCosts inputs;
     renovationCosts := renovationCosts inputs;
     interestRate := interestRate inputs;
     amortizationPeriod := amortizationPeriod inputs;
     term := term inputs;
     monthlyRent := monthlyRent inputs;
     vacancyRate := vacancyRate inputs;
     annualRentIncrease := annualRentIncrease inputs;
     propertyTaxes := propertyTaxes inputs;
     insurance := insurance inputs;
     condoFees := condoFees inputs;
     propertyManagement := propertyManagement inputs;
     maintenance := maintenance inputs;
     utilities := utilities inputs;
     otherExpenses := otherExpenses inputs;
     propertyType := propertyType inputs |}.

Definition set_propertyType (value : string) (inputs : Inputs num)
  : Inputs num :=
  {| purchasePrice := purchasePrice inputs;
     downPayment := downPayment inputs;
     downPaymentType := downPaymentType inputs;
     closingCosts := closingCosts inputs;
     renovationCosts := renovationCosts inputs;
     interestRate := interestRate inputs;
     amortizationPeriod := amortizationPeriod inputs;
     term := term inputs;
     monthlyRent := monthlyRent inputs;
     vacancyRate := vacancyRate inputs;
     annualRentIncrease := annualRentIncrease inputs;
     propertyTaxes := propertyTaxes inputs;
     insurance := insurance inputs;
     condoFees := condoFees inputs;
     propertyManagement := propertyManagement inputs;
     maintenance := maintenance inputs;
     utilities := utilities inputs;
     otherExpenses := otherExpenses inputs;
     propertyType := Some value |}.

(** The down payment as a whole percentage of the price (the branch
    [value === 'percent'] of the handler). *)
Definition amount_to_percent (purchasePrice downPayment : num) : num :=
  Math_round ((downPayment / purchasePrice) * lit 100).

(** The down payment of a given percentage, to the nearest hundred (the
    other branch, also used when the price changes in percent mode). *)
Definition percent_to_amount (purchasePrice downPaymentPercent : num) : num :=
  Math_round (purchasePrice * (downPaymentPercent / lit 100) / lit 100) * lit 100.

(** [handleInputChange]: the next [inputs] state. *)
Definition handleInputChange (inputs : Inputs num) (change : Change num)
  : Inputs num :=
  match change with
  | SetNumber name value =>
      let updatedInputs := set_number name value inputs in
      match name with
      | Key.purchasePrice =>
          match downPaymentType inputs with
          | percent =>
              set_number Key.downPayment
                (percent_to_amount value (downPayment inputs)) updatedInputs
          | amount => updatedInputs
          end
      | Key.downPayment =>
          match downPaymentType inputs with
          | percent =>
              let value := if value >? lit 100 then lit 100 else value in
              set_number Key.downPayment value updatedInputs
          | amount =>
              let purchasePrice := purchasePrice inputs in
              let value := if value >? purchasePrice then purchasePrice else value in
              set_number Key.downPayment value updatedInputs
          end
      | _ => updatedInputs
      end
  | SetDownPaymentType value =>
      let updatedInputs := set_downPaymentType value inputs in
      let purchasePrice := purchasePrice inputs in
      let downPayment := downPayment inputs in
      match value with
      | percent =>
          set_number Key.downPayment
            (amount_to_percent purchasePrice downPayment) updatedInputs
      | amount =>
          set_number Key.downPayment
            (percent_to_amount purchasePrice downPayment) updatedInputs
      end
  | SetPropertyType value => set_propertyType value inputs
  end.

End Handler.

(** ** Notions used in the statements *)

Section Notions.

Context {num : Type} {N : Numeric num}.
Local Open Scope num_scope.

(** [x] multiplied by [g], [k] times: the value of a variable that the loop
    updates with [x *= g], after [k] rounds. *)
Definition compound (x g : num) (k : nat) : num :=
  Nat.iter k (fun v => v * g) x.

(** The records the loop pushes for the years [ys], starting from the given
    rent and expenses; [amp] is the annual mortgage payment and [ari] the
    annual rent increase. *)
Fixpoint rows (amp ari : num) (ys : list Z) (rent opex : num)
  : list (CashFlowYear num) :=
  match ys with
  | [] => []
  | y :: ys' =>
      {| year := y;
         rentalIncome := rent;
         operatingExpenses := opex;
         mortgagePayment := amp;
         cashFlow := rent - opex - amp |}
      :: rows amp ari ys' (rent * (lit 1 + ari / lit 100)) (opex * lit_1_02)
  end.

(** The initial [inputs] state of the component (5.5 is written 11/2, which
    is the same number in both readings). *)
Definition initial_inputs : Inputs num :=
  {| purchasePrice := lit 500000;
     downPayment := lit 100000;
     downPaymentType := amount;
     closingCosts := lit 5000;
     renovationCosts := lit 0;
     interestRate := lit 11 / lit 2;
     amortizationPeriod := lit 25;
     term := lit 5;
     monthlyRent := lit 2500;
     vacancyRate := lit 5;
     annualRentIncrease := lit 2;
     propertyTaxes := lit 5000;
     insurance := lit 1500;
     condoFees := lit 0;
     propertyManagement := lit 8;
     maintenance := lit 5;
     utilities := lit 0;
     otherExpenses := lit 0;
     propertyType := None |}.

(** The second scenario of the specification: a stated down payment of
    50000, below 20% of the price. *)
Definition low_down_payment_inputs : Inputs num :=
  set_number Key.downPayment (lit 50000) initial_inputs.

Definition zero_interest_inputs : Inputs num :=
  set_number Key.interestRate (lit 0) initial_inputs.

Definition zero_price_inputs : Inputs num :=
  set_number Key.purchasePrice (lit 0) initial_inputs.

Definition zero_rent_inputs : Inputs num :=
  set_number Key.monthlyRent (lit 0) initial_inputs.

(** A negative price, without interest. *)
Definition negative_price_inputs : Inputs num :=
  set_number Key.purchasePrice (lit (-500000)) zero_interest_inputs.

(** No down payment and no costs, in percent mode, for a free property. *)
Definition nothing_invested_inputs : Inputs num :=
  set_downPaymentType percent
    (set_number Key.downPayment (lit 0)
       (set_number Key.closingCosts (lit 0) zero_price_inputs)).

End Notions.

(** No field of the result set is [Infinity], [-Infinity] or [NaN]. *)
Definition finite_results (r : Results xnum) : bool :=
  X.is_finite (mortgageAmount r) && X.is_finite (downPaymentPercent r)
  && X.is_finite (totalMortgage r) && X.is_finite (monthlyPayment r)
  && X.is_finite (monthlyRentAfterVacancy r) && X.is_finite (monthlyExpenses r)
  && X.is_finite (monthlyCashFlow r) && X.is_finite (annualCashFlow r)
  && X.is_finite (totalMonthlyExpenses r) && X.is_finite (cashOnCash r)
  && X.is_finite (capRate r) && X.is_finite (grossRentMultiplier r)
  && X.is_finite (breakEvenOccupancy r) && X.is_finite (netOperatingIncome r)
  && X.is_finite (expenseRatio r)
  && forallb (fun row =>
                X.is_finite (rentalIncome row) && X.is_finite (operatingExpenses row)
                && X.is_finite (mortgagePayment row) && X.is_finite (cashFlow row))
             (cashFlowSchedule r).

(** The exact reading with the sample power function. *)
Definition exact_numbers : Numeric xnum := X.numeric X.pow_whole.

(** The binary64 reading with a sample power function: whole exponents from
    0 to 360 by repeated multiplication, [NaN] elsewhere.  The host's
    [Math.pow] need not agree with it to the last bit; at (1.02, 3) it gives
    the double nearest to the cube, as hosts do.  It serves closed
    evaluations only. *)
Fixpoint float_power (b : float) (n : nat) : float :=
  match n with
  | O => PrimFloat.one
  | S n' => PrimFloat.mul (float_power b n') b
  end.

Definition pow_whole64 (b e : float) : float :=
  match find (fun n => PrimFloat.eqb (F64.of_Z (Z.of_nat n)) e) (seq 0 361) with
  | Some n => float_power b n
  | None => PrimFloat.nan
  end.

Definition binary64_numbers : Numeric float := F64.numeric pow_whole64.
(** ** What the page derives from the two states *)

(** A slice of the expense chart. *)
Module Slice.
Record t (num : Type) : Type := { name : string; value : num }.
End Slice.

(** A point of the cash-flow chart. *)
Module Point.
Record t (num : Type) : Type := { year : Z; cashFlow : num }.
End Point.

(** A row of the chart of the projections tab. *)
Module Cumulative.
Record t (num : Type) : Type := {
  year : Z;
  annualCashFlow : num;
  cumulativeCashFlow : num
}.
End Cumulative.

(** The names of the number fields, in the order of the state object. *)
Definition all_keys : list Key.t :=
  [ Key.purchasePrice; Key.downPayment; Key.closingCosts; Key.renovationCosts;
    Key.interestRate; Key.amortizationPeriod; Key.term;
    Key.monthlyRent; Key.vacancyRate; Key.annualRentIncrease;
    Key.propertyTaxes; Key.insurance; Key.condoFees;
    Key.propertyManagement; Key.maintenance; Key.utilities; Key.otherExpenses ].

Section Display.

Context {num : Type} {N : Numeric num}.
Local Open Scope num_scope.

(** [inputs[name]] for a number field. *)
Definition get (name : Key.t) (inputs : Inputs num) : num :=
  match name with
  | Key.purchasePrice => purchasePrice inputs
  | Key.downPayment => downPayment inputs
  | Key.closingCosts => closingCosts inputs
  | Key.renovationCosts => renovationCosts inputs
  | Key.interestRate => interestRate inputs
  | Key.amortizationPeriod => amortizationPeriod inputs
  | Key.term => term inputs
  | Key.monthlyRent => monthlyRent inputs
  | Key.vacancyRate => vacancyRate inputs
  | Key.annualRentIncrease => annualRentIncrease inputs
  | Key.propertyTaxes => propertyTaxes inputs
  | Key.insurance => insurance inputs
  | Key.condoFees => condoFees inputs
  | Key.propertyManagement => propertyManagement inputs
  | Key.maintenance => maintenance inputs
  | Key.utilities => utilities inputs
  | Key.otherExpenses => otherExpenses inputs
  end.

(** [a < b] and [a >= b] on numbers, from the two comparisons of the
    interface. *)
Definition lt (a b : num) : bool := b >? a.
Definition ge (a b : num) : bool := (a >? b) || (a === b).



(** [prepareCashFlowProjectionData]. *)
Definition prepareCashFlowProjectionData (results : Results num)
  : list (Point.t num) :=
  map (fun item => {| Point.year := year item; Point.cashFlow := cashFlow item |})
      (firstn 10 (cashFlowSchedule results)).

(** The cumulative cash flow of the projections tab, for the row of the
    given index:
    [cashFlowSchedule.slice(0, index + 1).reduce((sum, year) => sum + year.cashFlow, 0)]. *)
Definition cumulativeCashFlow (results : Results num) (index : nat) : num :=
  fold_left (fun sum year => sum + cashFlow year)
            (firstn (index + 1) (cashFlowSchedule results)) (lit 0).

(** The data of the cumulative chart:
    [cashFlowSchedule.slice(0, 10).map((item, index) => ...)]. *)
Definition cumulativeChartData (results : Results num)
  : list (Cumulative.t num) :=
  map (fun '(index, item) =>
         {| Cumulative.year := year item;
            Cumulative.annualCashFlow := cashFlow item;
            Cumulative.cumulativeCashFlow := cumulativeCashFlow results index |})
      (combine (seq 0 10) (firstn 10 (cashFlowSchedule results))).

(** The condition under which the page shows "Investment properties
    typically require at least 20% down payment":
    [results.downPaymentPercent < 20]. *)
Definition showsDownPaymentWarning (results : Results num) : bool :=
  lt (downPaymentPercent results) (lit 20).

(** The three notes of the summary tab: [results.monthlyCashFlow < 0],
    [results.cashOnCash < 4 && results.cashOnCash >= 0] and
    [results.cashOnCash >= 8]. *)
Definition showsNegativeCashFlowWarning (results : Results num) : bool :=
  lt (monthlyCashFlow results) (lit 0).

Definition showsLowReturnWarning (results : Results num) : bool :=
  lt (cashOnCash results) (lit 4) && ge (cashOnCash results) (lit 0).

Definition showsStrongPotential (results : Results num) : bool :=
  ge (cashOnCash results) (lit 8).

(** The sentence of the investment summary, chosen by the chain of
    conditionals on [results.cashOnCash]. *)
Inductive Summary : Type :=
| StrongPotential
| DecentPotential
| BelowAverageReturns
| NegativeReturns.

Definition investmentSummary (results : Results num) : Summary :=
  if ge (cashOnCash results) (lit 8) then StrongPotential
  else if ge (cashOnCash results) (lit 5) then DecentPotential
  else if ge (cashOnCash results) (lit 0) then BelowAverageReturns
  else NegativeReturns.

(** The figure shown as "Initial Investment":
    [inputs.downPayment + inputs.closingCosts + inputs.renovationCosts]. *)
Definition displayedInitialInvestment (inputs : Inputs num) : num :=
  downPayment inputs + closingCosts inputs + renovationCosts inputs.

End Display.

(** ** The form as it is at run time

    At run time a number field of [inputs] holds a number or a string: the
    handler stores the empty string when a field is emptied, and it stores
    the text itself when the field did not hold a number before.  The
    functions of the component are given here over that state; on states
    that hold numbers only they are the ones above. *)

Module Form.

Inductive entry (num : Type) : Type :=
| Num (x : num)
| Str (s : string).

Arguments Str {num} s.

Record state (num : Type) : Type := {
  field : Key.t -> entry num;
  downPaymentType : DownPaymentType;
  propertyType : option string
}.

(** What the page sends to [handleInputChange]: the text of a number field,
    or the option chosen in one of the two selectors. *)
Inductive event : Type :=
| Typed (name : Key.t) (text : string)
| Selected (value : DownPaymentType)
| PropertySelected (value : string).

(** [\d] *)
Definition is_digit (c : Ascii.ascii) : bool :=
  (48 <=? Ascii.nat_of_ascii c)%nat && (Ascii.nat_of_ascii c <=? 57)%nat.

(** [value.replace(/^0+(?=\d)/, '')]: the leading zeros that a digit follows
    are removed (48 is the code of the character 0). *)
Fixpoint strip_leading_zeros (s : string) : string :=
  match s with
  | String c rest =>
      if (Ascii.nat_of_ascii c =? 48)%nat then
        match rest with
        | String d _ => if is_digit d then strip_leading_zeros rest else s
        | EmptyString => s
        end
      else s
  | EmptyString => s
  end.

Section Functions.

Context {num : Type} {N : Numeric num}.
Local Open Scope num_scope.

(** The host's [Number] on strings (it is also the conversion that the
    arithmetic operators apply to a string). *)
Variable Number_ : string -> num.

(** [typeof e === 'number' ? e : 0] *)
Definition number_or_0 (e : entry num) : num :=
  match e with
  | Num x => x
  | Str _ => lit 0
  end.

(** [Number(e)], and [e] as an operand of [/] and [*]. *)
Definition to_number (e : entry num) : num :=
  match e with
  | Num x => x
  | Str s => Number_ s
  end.

(** [e === 0] *)
Definition is_zero (e : entry num) : bool :=
  match e with
  | Num x => x === lit 0
  | Str _ => false
  end.

(** [e === ''] *)
Definition is_empty (e : entry num) : bool :=
  match e with
  | Num _ => false
  | Str s => (s =? "")%string
  end.

(** [{ ...inputs, [name]: e }] *)
Definition set (name : Key.t) (e : entry num) (inputs : state num) : state num :=
  {| field := fun k => if Key.eqb k name then e else field inputs k;
     downPaymentType := downPaymentType inputs;
     propertyType := propertyType inputs |}.

(** [handleInputChange (name, value)]. *)
Definition handleInputChange (inputs : state num) (e : event) : state num :=
  match e with
  | Typed name text =>
      if (text =? "")%string then set name (Str "") inputs
      else
        let value :=
          match field inputs name with
          | Num _ => Num (Number_ (strip_leading_zeros text))
          | Str _ => Str text
          end in
        let updatedInputs := set name value inputs in
        match name with
        | Key.purchasePrice =>
            match downPaymentType inputs with
            | percent =>
                let purchasePrice := number_or_0 value in
                let downPaymentPercent :=
                  number_or_0 (field inputs Key.downPayment) in
                set Key.downPayment
                  (Num (percent_to_amount purchasePrice downPaymentPercent))
                  updatedInputs
            | amount => updatedInputs
            end
        | Key.downPayment =>
            match downPaymentType inputs with
            | percent =>
                let numValue := to_number value in
                let value := if numValue >? lit 100 then lit 100 else numValue in
                set Key.downPayment (Num value) updatedInputs
            | amount =>
                let purchasePrice :=
                  number_or_0 (field inputs Key.purchasePrice) in
                let numValue := to_number value in
                let value :=
                  if numValue >? purchasePrice then purchasePrice else numValue in
                set Key.downPayment (Num value) updatedInputs
            end
        | _ => updatedInputs
        end
  | Selected value =>
      let updatedInputs :=
        {| field := field inputs;
           downPaymentType := value;
           propertyType := propertyType inputs |} in
      let purchasePrice := number_or_0 (field inputs Key.purchasePrice) in
      let downPayment := number_or_0 (field inputs Key.downPayment) in
      match value with
      | percent =>
          set Key.downPayment
            (Num (amount_to_percent purchasePrice downPayment)) updatedInputs
      | amount =>
          set Key.downPayment
            (Num (percent_to_amount purchasePrice downPayment)) updatedInputs
      end
  | PropertySelected value =>
      {| field := field inputs;
         downPaymentType := downPaymentType inputs;
         propertyType := Some value |}
  end.

(** [handleBlur (name)]. *)
Definition handleBlur (inputs : state num) (name : Key.t) : state num :=
  if is_empty (field inputs name) then set name (Num (lit 0)) inputs
  else inputs.

(** [generateCashFlowSchedule], with the three arguments that
    [calculateResults] passes as they are in the state. *)
Definition generateCashFlowSchedule
    (principal : num) (annualInterestRate amortizationYears : entry num)
    (monthlyRentAfterVacancy monthlyOperatingExpenses : num)
    (annualRentIncrease : entry num)
  : list (CashFlowYear num) * num :=
  let init :=
    {| schedule := [];
       annualRent := monthlyRentAfterVacancy * lit 12;
       annualOperatingExpenses := monthlyOperatingExpenses * lit 12 |} in
  let monthlyInterestRate := (to_number annualInterestRate / lit 100) / lit 12 in
  let totalPayments := to_number amortizationYears * lit 12 in
  let monthlyPayment :=
    if is_zero annualInterestRate then
      principal / totalPayments
    else
      principal *
        (monthlyInterestRate * Math_pow (lit 1 + monthlyInterestRate) totalPayments) /
        (Math_pow (lit 1 + monthlyInterestRate) totalPayments - lit 1) in
  let annualMortgagePayment := monthlyPayment * lit 12 in
  let final :=
    fold_left (project_year annualMortgagePayment (to_number annualRentIncrease))
              projection_years init in
  (schedule final, monthlyPayment).

(** [calculateResults]. *)
Definition calculateResults (inputs : state num) : Results num :=
  let purchasePrice := number_or_0 (field inputs Key.purchasePrice) in
  let downPaymentAmount :=
    match downPaymentType inputs with
    | amount => number_or_0 (field inputs Key.downPayment)
    | percent =>
        (purchasePrice * number_or_0 (field inputs Key.downPayment)) / lit 100
    end in
  let minimumDownPaymentPercent := lit 20 in
  let minimumDownPayment := (minimumDownPaymentPercent / lit 100) * purchasePrice in
  let actualDownPayment := Math_max downPaymentAmount minimumDownPayment in
  let actualDownPaymentPercent := (actualDownPayment / purchasePrice) * lit 100 in
  let mortgageAmount := purchasePrice - actualDownPayment in
  let monthlyRent := number_or_0 (field inputs Key.monthlyRent) in
  let vacancyRate := number_or_0 (field inputs Key.vacancyRate) in
  let monthlyRentAfterVacancy := monthlyRent * (lit 1 - vacancyRate / lit 100) in
  let propertyTaxesMonthly := number_or_0 (field inputs Key.propertyTaxes) / lit 12 in
  let insuranceMonthly := number_or_0 (field inputs Key.insurance) / lit 12 in
  let condoFees := number_or_0 (field inputs Key.condoFees) in
  let propertyManagementFee :=
    monthlyRent * number_or_0 (field inputs Key.propertyManagement) / lit 100 in
  let maintenanceCosts :=
    monthlyRent * number_or_0 (field inputs Key.maintenance) / lit 100 in
  let utilities := number_or_0 (field inputs Key.utilities) in
  let otherExpenses := number_or_0 (field inputs Key.otherExpenses) in
  let monthlyOperatingExpenses :=
    propertyTaxesMonthly + insuranceMonthly + condoFees +
    propertyManagementFee + maintenanceCosts + utilities + otherExpenses in
  let cashFlowData :=
    generateCashFlowSchedule
      mortgageAmount
      (field inputs Key.interestRate)
      (field inputs Key.amortizationPeriod)
      monthlyRentAfterVacancy
      monthlyOperatingExpenses
      (field inputs Key.annualRentIncrease) in
  let monthlyPayment := snd cashFlowData in
  let totalMonthlyExpenses := monthlyOperatingExpenses + monthlyPayment in
  let monthlyCashFlow := monthlyRentAfterVacancy - totalMonthlyExpenses in
  let annualCashFlow := monthlyCashFlow * lit 12 in
  let initialInvestment :=
    actualDownPayment +
    number_or_0 (field inputs Key.closingCosts) +
    number_or_0 (field inputs Key.renovationCosts) in
  let cashOnCash :=
    if initialInvestment >? lit 0
    then (annualCashFlow / initialInvestment) * lit 100
    else lit 0 in
  let annualRentalIncome := monthlyRentAfterVacancy * lit 12 in
  let annualOperatingExpenses := monthlyOperatingExpenses * lit 12 in
  let netOperatingIncome := annualRentalIncome - annualOperatingExpenses in
  let capRate := (netOperatingIncome / purchasePrice) * lit 100 in
  let grossRentMultiplier := purchasePrice / (monthlyRent * lit 12) in
  let expenseRatio :=
    ((monthlyOperatingExpenses * lit 12) / (monthlyRent * lit 12)) * lit 100 in
  let breakEvenOccupancy := (totalMonthlyExpenses / monthlyRent) * lit 100 in
  {| mortgageAmount := mortgageAmount;
     downPaymentPercent := actualDownPaymentPercent;
     totalMortgage := mortgageAmount;
     monthlyPayment := monthlyPayment;
     monthlyRentAfterVacancy := monthlyRentAfterVacancy;
     monthlyExpenses := monthlyOperatingExpenses;
     monthlyCashFlow := monthlyCashFlow;
     annualCashFlow := annualCashFlow;
     totalMonthlyExpenses := totalMonthlyExpenses;
     cashOnCash := cashOnCash;
     capRate := capRate;
     grossRentMultiplier := grossRentMultiplier;
     breakEvenOccupancy := breakEvenOccupancy;
     netOperatingIncome := netOperatingIncome;
     expenseRatio := expenseRatio;
     cashFlowSchedule := fst cashFlowData |}.

(** [Object.values(inputs).some(value => value === '')] *)
Definition some_empty (inputs : state num) : bool :=
  existsb (fun k => is_empty (field inputs k)) all_keys
  || match propertyType inputs with
     | Some s => (s =? "")%string
     | None => false
     end.

(** The effect that runs when [inputs] has changed: the next [results]. *)
Definition useEffect (inputs : state num) (results : Results num)
  : Results num :=
  if some_empty inputs then results else calculateResults inputs.

End Functions.

End Form.

Section Views.

Context {num : Type} {N : Numeric num}.

(** A state that holds numbers only. *)
Definition form_of_inputs (inputs : Inputs num) : Form.state num :=
  {| Form.field := fun k => Form.Num (get k inputs);
     Form.downPaymentType := downPaymentType inputs;
     Form.propertyType := propertyType inputs |}.

(** The numbers that the handler reads in a state
    ([typeof x === 'number' ? x : 0] for each field). *)
Definition inputs_of_form (s : Form.state num) : Inputs num :=
  let read k := Form.number_or_0 (Form.field s k) in
  {| purchasePrice := read Key.purchasePrice;
     downPayment := read Key.downPayment;
     downPaymentType := Form.downPaymentType s;
     closingCosts := read Key.closingCosts;
     renovationCosts := read Key.renovationCosts;
     interestRate := read Key.interestRate;
     amortizationPeriod := read Key.amortizationPeriod;
     term := read Key.term;
     monthlyRent := read Key.monthlyRent;
     vacancyRate := read Key.vacancyRate;
     annualRentIncrease := read Key.annualRentIncrease;
     propertyTaxes := read Key.propertyTaxes;
     insurance := read Key.insurance;
     condoFees := read Key.condoFees;
     propertyManagement := read Key.propertyManagement;
     maintenance := read Key.maintenance;
     utilities := read Key.utilities;
     otherExpenses := read Key.otherExpenses;
     propertyType := Form.propertyType s |}.

(** Two states with the same contents. *)
Definition same_form (s t : Form.state num) : Prop :=
  (forall k, Form.field s k = Form.field t k) /\
  Form.downPaymentType s = Form.downPaymentType t /\
  Form.propertyType s = Form.propertyType t.

End Views.

(** ** The text of a number field *)

(** [n] characters 0. *)
Fixpoint zeros (n : nat) : string :=
  match n with
  | O => EmptyString
  | S n' => String (Ascii.ascii_of_nat 48) (zeros n')
  end.

(** The text starts with a 0 that a digit follows. *)
Definition zero_then_digit (s : string) : bool :=
  match s with
  | String c (String d _) =>
      (Ascii.nat_of_ascii c =? 48)%nat && Form.is_digit d
  | _ => false
  end.

(** The fields that [calculateResults] reads through
    [typeof x === 'number' ? x : 0]; [term] is not read at all.  The other
    three are passed on as they are. *)
Definition guarded (k : Key.t) : bool :=
  match k with
  | Key.interestRate | Key.amortizationPeriod | Key.annualRentIncrease => false
  | _ => true
  end.

Section Events.

Context {num : Type} {N : Numeric num}.
Variable Number_ : string -> num.

(** What an event of the page is for the handler on numbers: the text of a
    number field is read by [Number] after its leading zeros are removed. *)
Definition change_of_event (e : Form.event) : Change num :=
  match e with
  | Form.Typed name text =>
      SetNumber name (Number_ (Form.strip_leading_zeros text))
  | Form.Selected value => SetDownPaymentType value
  | Form.PropertySelected value => SetPropertyType value
  end.

End Events.

(** A sample [Number] for closed evaluations: the value of a non-empty
    string of digits.  Elsewhere it answers [NaN], which [Number] does not
    always do; no theorem depends on this choice. *)
Fixpoint digits_value (s : string) (acc : Z) : option Z :=
  match s with
  | EmptyString => Some acc
  | String c rest =>
      if Form.is_digit c
      then digits_value rest (10 * acc + (Z.of_nat (Ascii.nat_of_ascii c) - 48))
      else None
  end.

Definition Number_of_digits (s : string) : xnum :=
  match s with
  | EmptyString => NaN
  | _ => match digits_value s 0 with
         | Some z => X.of_Z z
         | None => NaN
         end
  end.

(** The initial state of the component as it is at run time, and the
    initial [results] state. *)
Definition initial_form : Form.state xnum :=
  form_of_inputs (initial_inputs (N := exact_numbers)).

Definition initial_results : Results xnum :=
  let zero := X.of_Z 0 in
  {| mortgageAmount := zero;
     downPaymentPercent := zero;
     totalMortgage := zero;
     monthlyPayment := zero;
     monthlyRentAfterVacancy := zero;
     monthlyExpenses := zero;
     monthlyCashFlow := zero;
     annualCashFlow := zero;
     totalMonthlyExpenses := zero;
     cashOnCash := zero;
     capRate := zero;
     grossRentMultiplier := zero;
     breakEvenOccupancy := zero;
     netOperatingIncome := zero;
     expenseRatio := zero;
     cashFlowSchedule := [] |}.

(** States used in the evaluations: the rent field emptied, a lower rent,
    the down payment given as 20 percent. *)
Definition emptied_rent_form : Form.state xnum :=
  Form.set Key.monthlyRent (Form.Str "") initial_form.

(** A rent of 2000 without interest: the cash flow is negative. *)
Definition low_rent_inputs : Inputs xnum :=
  set_number Key.monthlyRent (X.of_Z 2000)
             (zero_interest_inputs (N := exact_numbers)).

Definition twenty_percent_inputs : Inputs xnum :=
  set_downPaymentType percent
    (set_number Key.downPayment (X.of_Z 20)
                (initial_inputs (N := exact_numbers))).
(** ** The shape of the computation

    Facts that hold whatever the arithmetic: they are read off the data flow
    of the engine, and so apply to the binary64 numbers the code runs on. *)

Section Shape.

Context {num : Type} {N : Numeric num}.
Local Open Scope num_scope.

Lemma compound_0 (x g : num) : compound x g 0 = x.
Proof. reflexivity. Qed.

Lemma compound_step (x g : num) (k : nat) :
  compound (x * g) g k = compound x g (S k).
Proof. unfold compound. now rewrite Nat.iter_succ_r. Qed.

Lemma fold_project_year (amp ari : num) (ys : list Z) :
  forall st : Projection,
    schedule (fold_left (project_year amp ari) ys st) =
    schedule st ++ rows amp ari ys (annualRent st) (annualOperatingExpenses st).
Proof.
  induction ys as [|y ys IH]; intros st; simpl.
  - now rewrite app_nil_r.
  - rewrite IH. simpl. now rewrite <- app_assoc.
Qed.

Lemma rows_length (amp ari : num) (ys : list Z) :
  forall rent opex, length (rows amp ari ys rent opex) = length ys.
Proof.
  induction ys as [|y ys IH]; intros rent opex; simpl; [reflexivity|].
  now rewrite IH.
Qed.

Lemma rows_nth (amp ari : num) (ys : list Z) :
  forall rent opex k y,
    nth_error ys k = Some y ->
    nth_error (rows amp ari ys rent opex) k =
    Some {| year := y;
            rentalIncome := compound rent (lit 1 + ari / lit 100) k;
            operatingExpenses := compound opex lit_1_02 k;
            mortgagePayment := amp;
            cashFlow := compound rent (lit 1 + ari / lit 100) k
                        - compound opex lit_1_02 k - amp |}.
Proof.
  induction ys as [|y0 ys IH]; intros rent opex k y Hk.
  - destruct k; discriminate.
  - destruct k as [|k]; simpl in *.
    + now inversion Hk.
    + rewrite (IH _ _ _ _ Hk). now rewrite !compound_step.
Qed.

Lemma projection_years_nth (k : nat) :
  (k < 30)%nat -> nth_error projection_years k = Some (Z.of_nat k + 1)%Z.
Proof.
  intros Hk. unfold projection_years.
  rewrite nth_error_map, nth_error_seq.
  destruct (Nat.ltb_spec k 30) as [_|H]; [|lia].
  simpl. f_equal. lia.
Qed.

Lemma projection_years_length : length projection_years = 30%nat.
Proof. reflexivity. Qed.

(** The schedule that [generateCashFlowSchedule] returns. *)
Lemma generateCashFlowSchedule_rows
    (principal rate years rentAfterVacancy opex ari : num) :
  fst (generateCashFlowSchedule principal rate years rentAfterVacancy opex ari) =
  rows (mortgage_payment principal rate years * lit 12) ari projection_years
       (rentAfterVacancy * lit 12) (opex * lit 12).
Proof.
  unfold generateCashFlowSchedule. cbv zeta. unfold fst.
  now rewrite fold_project_year.
Qed.

Lemma generateCashFlowSchedule_payment
    (principal rate years rentAfterVacancy opex ari : num) :
  snd (generateCashFlowSchedule principal rate years rentAfterVacancy opex ari) =
  mortgage_payment principal rate years.
Proof. reflexivity. Qed.

(** The schedule of a result set, in terms of its other fields. *)
Lemma cashFlowSchedule_rows (inputs : Inputs num) :
  let r := calculateResults inputs in
  cashFlowSchedule r =
  rows (monthlyPayment r * lit 12) (annualRentIncrease inputs) projection_years
       (monthlyRentAfterVacancy r * lit 12) (monthlyExpenses r * lit 12).
Proof.
  cbv zeta. unfold calculateResults. cbv zeta. simpl cashFlowSchedule.
  rewrite generateCashFlowSchedule_rows. reflexivity.
Qed.

End Shape.

Section Formulas.

Context {num : Type} {N : Numeric num}.
Local Open Scope num_scope.

Lemma rows_years (amp ari : num) (ys : list Z) :
  forall rent opex, map (@year num) (rows amp ari ys rent opex) = ys.
Proof.
  induction ys as [|y ys IH]; intros rent opex; simpl; [reflexivity|].
  now rewrite IH.
Qed.

Lemma rows_mortgagePayment (amp ari : num) (ys : list Z) :
  forall rent opex,
    Forall (fun row => mortgagePayment row = amp) (rows amp ari ys rent opex).
Proof.
  induction ys as [|y ys IH]; intros rent opex; simpl; constructor.
  - reflexivity.
  - apply IH.
Qed.

(** C2.  Whatever the down-payment type, the engine takes the stated amount
    ([downPayment] itself for [amount], [purchasePrice * downPayment / 100]
    for [percent]), the effective down payment is the larger of it and 20%
    of the price ([20 / 100 * purchasePrice]), the reported percentage is the
    effective amount over the price times 100, and the mortgage is the price
    less the effective amount.  No condition on the price is needed for these
    equations. *)
Theorem effective_down_payment (inputs : Inputs num) :
  let r := calculateResults inputs in
  let price := purchasePrice inputs in
  let stated :=
    match downPaymentType inputs with
    | amount => downPayment inputs
    | percent => price * downPayment inputs / lit 100
    end in
  let effective := Math_max stated (lit 20 / lit 100 * price) in
  downPaymentAmount inputs = stated /\
  actualDownPayment inputs = effective /\
  downPaymentPercent r = effective / price * lit 100 /\
  mortgageAmount r = price - effective.
Proof.
  cbv zeta.
  assert (Hs : downPaymentAmount inputs =
               match downPaymentType inputs with
               | amount => downPayment inputs
               | percent => purchasePrice inputs * downPayment inputs / lit 100
               end) by (unfold downPaymentAmount; now destruct (downPaymentType inputs)).
  assert (He : actualDownPayment inputs =
               Math_max (downPaymentAmount inputs)
                        (lit 20 / lit 100 * purchasePrice inputs)) by reflexivity.
  rewrite <- Hs, <- He. repeat split; reflexivity.
Qed.

(** C3.  The schedule of every result set has exactly 30 entries, their
    years are 1, 2, ..., 30 in this order, and each entry's mortgage payment
    is the monthly payment times 12. *)
Theorem schedule_thirty_years (inputs : Inputs num) :
  let r := calculateResults inputs in
  List.length (cashFlowSchedule r) = 30%nat /\
  map (@year num) (cashFlowSchedule r) = map Z.of_nat (seq 1 30) /\
  Forall (fun row => mortgagePayment row = monthlyPayment r * lit 12)
         (cashFlowSchedule r).
Proof.
  intros r. subst r. rewrite cashFlowSchedule_rows.
  split; [|split].
  - now rewrite rows_length.
  - now rewrite rows_years.
  - apply rows_mortgagePayment.
Qed.

(** C5.  When the interest rate is 0 (the test is [interestRate === 0]) the
    monthly payment is the mortgage amount over the number of payments
    [amortizationPeriod * 12]; otherwise it is
    [mortgageAmount * (r * (1+r)^n) / ((1+r)^n - 1)] with
    [r = interestRate / 100 / 12], [n = amortizationPeriod * 12] and the power
    taken by [Math.pow]. *)
Theorem monthly_payment_formula (inputs : Inputs num) :
  let res := calculateResults inputs in
  let r := interestRate inputs / lit 100 / lit 12 in
  let n := amortizationPeriod inputs * lit 12 in
  (interestRate inputs = lit 0 ->
   monthlyPayment res = mortgageAmount res / n) /\
  ((interestRate inputs === lit 0) = true ->
   monthlyPayment res = mortgageAmount res / n) /\
  ((interestRate inputs === lit 0) = false ->
   monthlyPayment res =
   mortgageAmount res * (r * Math_pow (lit 1 + r) n) / (Math_pow (lit 1 + r) n - lit 1)).
Proof.
  cbv zeta.
  assert (Hp : monthlyPayment (calculateResults inputs) =
               mortgage_payment (mortgageAmount (calculateResults inputs))
                                (interestRate inputs) (amortizationPeriod inputs))
    by reflexivity.
  rewrite Hp. unfold mortgage_payment. cbv zeta.
  split; [|split]; intros Hrate.
  - rewrite Hrate. now rewrite zero_eq_zero.
  - now rewrite Hrate.
  - now rewrite Hrate.
Qed.

(** C7.  The initial investment is the effective down payment, that is the
    larger of the stated amount and 20% of the price, plus the closing and
    the renovation costs.  The cash-on-cash return is
    [annualCashFlow / initialInvestment * 100] when [initialInvestment > 0]
    and the number 0 otherwise, in particular when the initial investment
    is 0. *)
Theorem cash_on_cash_guarded (inputs : Inputs num) :
  let r := calculateResults inputs in
  let price := purchasePrice inputs in
  let stated :=
    match downPaymentType inputs with
    | amount => downPayment inputs
    | percent => price * downPayment inputs / lit 100
    end in
  let invested :=
    Math_max stated (lit 20 / lit 100 * price)
    + closingCosts inputs + renovationCosts inputs in
  ((invested >? lit 0) = true ->
   cashOnCash r = annualCashFlow r / invested * lit 100) /\
  ((invested >? lit 0) = false -> cashOnCash r = lit 0) /\
  (invested = lit 0 -> cashOnCash r = lit 0).
Proof.
  cbv zeta.
  assert (Hi : initialInvestment inputs =
               Math_max
                 match downPaymentType inputs with
                 | amount => downPayment inputs
                 | percent => purchasePrice inputs * downPayment inputs / lit 100
                 end
                 (lit 20 / lit 100 * purchasePrice inputs)
               + closingCosts inputs + renovationCosts inputs).
  { unfold initialInvestment, actualDownPayment, downPaymentAmount,
      minimumDownPayment.
    now destruct (downPaymentType inputs). }
  assert (Hc : cashOnCash (calculateResults inputs) =
               if initialInvestment inputs >? lit 0
               then annualCashFlow (calculateResults inputs)
                    / initialInvestment inputs * lit 100
               else lit 0) by reflexivity.
  rewrite Hi in Hc.
  split; [|split]; intros H; rewrite Hc.
  - now rewrite H.
  - now rewrite H.
  - rewrite H. now rewrite zero_not_gt_zero.
Qed.

(** C8.  The monthly operating expenses are
    [propertyTaxes/12 + insurance/12 + condoFees
     + monthlyRent*propertyManagement/100 + monthlyRent*maintenance/100
     + utilities + otherExpenses]: the two percentages are taken of the gross
    monthly rent, and changing the vacancy rate leaves the expenses as they
    are. *)
Theorem operating_expenses_on_gross_rent (inputs : Inputs num) :
  monthlyExpenses (calculateResults inputs) =
  propertyTaxes inputs / lit 12 + insurance inputs / lit 12 + condoFees inputs
  + monthlyRent inputs * propertyManagement inputs / lit 100
  + monthlyRent inputs * maintenance inputs / lit 100
  + utilities inputs + otherExpenses inputs
  /\
  forall v : num,
    monthlyExpenses (calculateResults (set_number Key.vacancyRate v inputs)) =
    monthlyExpenses (calculateResults inputs).
Proof.
  assert (He : forall i : Inputs num,
             monthlyExpenses (calculateResults i) = monthlyOperatingExpenses i)
    by reflexivity.
  split.
  - rewrite He. unfold monthlyOperatingExpenses. reflexivity.
  - intros v. rewrite !He. unfold monthlyOperatingExpenses, set_number. reflexivity.
Qed.


End Formulas.

(** ** Exact arithmetic

    The engine read over [xnum]: what its formulas compute when no rounding
    takes place.  First the facts on rationals that the statements rest on. *)

(** Goals on canonical rationals, restated on [Q] for [lra]. *)
Ltac q_consts :=
  repeat match goal with
  | |- context [Qinv (Qmake ?a ?b)] =>
      let v := eval cbv in (Qinv (Qmake a b)) in
      change (Qinv (Qmake a b)) with v
  | H : context [Qinv (Qmake ?a ?b)] |- _ =>
      let v := eval cbv in (Qinv (Qmake a b)) in
      change (Qinv (Qmake a b)) with v in H
  end.

Ltac qc_to_q :=
  unfold Qcle, Qclt, Qcdiv, Qcminus, Qcplus, Qcmult, Qcopp, Qcinv, Q2Qc in *;
  cbn [this] in *;
  rewrite ?Qred_correct in *;
  unfold inject_Z in *;
  q_consts.

Section Rationals.

Local Open Scope Qc_scope.

Lemma Qcmax_ge_l (p q : Qc) : p <= X.Qcmax p q.
Proof.
  unfold X.Qcmax. destruct (p ?= q) eqn:E.
  - apply Qcle_refl.
  - apply Qclt_le_weak. now apply Qclt_alt.
  - apply Qcle_refl.
Qed.

Lemma Qcmax_ge_r (p q : Qc) : q <= X.Qcmax p q.
Proof.
  unfold X.Qcmax. destruct (p ?= q) eqn:E.
  - apply Qceq_alt in E. subst. apply Qcle_refl.
  - apply Qcle_refl.
  - apply Qclt_le_weak. now apply Qcgt_alt.
Qed.

Lemma Qcmax_lub (p q u : Qc) : p <= u -> q <= u -> X.Qcmax p q <= u.
Proof. unfold X.Qcmax. now destruct (p ?= q). Qed.

Lemma lit_nonzero (z : Z) : z <> 0%Z -> Zc z <> 0.
Proof.
  intros Hz H. apply Q2Qc_eq_iff in H. unfold Qeq in H. simpl in H. lia.
Qed.

Lemma Qclt_nonzero (p : Qc) : 0 < p -> p <> 0.
Proof. intros H E. subst. now apply (Qclt_not_eq 0 0). Qed.

Lemma Qcround_bounds (q : Qc) :
  q - Q2Qc (1 # 2) <= X.Qcround q /\ X.Qcround q <= q + Q2Qc (1 # 2).
Proof.
  unfold X.Qcround.
  pose proof (Qfloor_le (q + (1 # 2))%Q) as Hlo.
  pose proof (Qlt_floor (q + (1 # 2))%Q) as Hhi.
  rewrite inject_Z_plus in Hhi. change (inject_Z 1) with 1%Q in Hhi.
  set (f := Qfloor (q + (1 # 2))%Q) in *. clearbody f.
  unfold Qcle, Qcminus, Qcplus, Qcopp, Q2Qc. cbn [this].
  change (Qred (1 # 2)) with (1 # 2)%Q.
  rewrite !Qred_correct.
  split; lra.
Qed.

Lemma percent_at_least_20 (M p : Qc) :
  0 < p -> Zc 20 / Zc 100 * p <= M -> Zc 20 <= M / p * Zc 100.
Proof.
  intros Hpos HM. qc_to_q.
  assert (H : ((20 # 100) <= M / p)%Q).
  { apply Qle_shift_div_l; [exact Hpos | lra]. }
  unfold Qdiv in H. lra.
Qed.

Lemma loan_at_most_80 (M p : Qc) :
  Zc 20 / Zc 100 * p <= M -> p - M <= Q2Qc (80 # 100) * p.
Proof. intros HM. qc_to_q. lra. Qed.

Lemma floor_at_most_price (p : Qc) : 0 < p -> Zc 20 / Zc 100 * p <= p.
Proof. intros Hpos. qc_to_q. lra. Qed.

Lemma loan_nonnegative (M p : Qc) : M <= p -> Zc 0 <= p - M.
Proof. intros HM. qc_to_q. lra. Qed.

(** The error of the two roundings, on [Q]. *)
Lemma round_trip_error_Q (p d x pct r : Q) :
  (0 < p)%Q ->
  (x * p == d)%Q ->
  (x * 100 - (1 # 2) <= pct)%Q -> (pct <= x * 100 + (1 # 2))%Q ->
  (p * (pct * (1 # 100)) * (1 # 100) - (1 # 2) <= r)%Q ->
  (r <= p * (pct * (1 # 100)) * (1 # 100) + (1 # 2))%Q ->
  (d - (p * (1 # 200) + 50) <= r * 100)%Q /\
  (r * 100 <= d + (p * (1 # 200) + 50))%Q.
Proof.
  intros Hpos Hx Hlo1 Hhi1 Hlo2 Hhi2.
  assert (H1 : (0 <= p * (pct - (x * 100 - (1 # 2))))%Q)
    by (apply Qmult_le_0_compat; lra).
  assert (H2 : (0 <= p * (x * 100 + (1 # 2) - pct))%Q)
    by (apply Qmult_le_0_compat; lra).
  split; nra.
Qed.

Lemma round_trip_error_Qc (p d x pct rounded : Qc) :
  0 < p ->
  (x * p == d)%Q ->
  x * Zc 100 - Q2Qc (1 # 2) <= pct ->
  pct <= x * Zc 100 + Q2Qc (1 # 2) ->
  p * (pct / Zc 100) / Zc 100 - Q2Qc (1 # 2) <= rounded ->
  rounded <= p * (pct / Zc 100) / Zc 100 + Q2Qc (1 # 2) ->
  d - (p / Zc 200 + Zc 50) <= rounded * Zc 100 /\
  rounded * Zc 100 <= d + (p / Zc 200 + Zc 50).
Proof.
  intros Hpos Hx Hlo1 Hhi1 Hlo2 Hhi2. qc_to_q.
  apply (@round_trip_error_Q p d x pct rounded); auto; lra.
Qed.

Lemma round_trip_error (p d : Qc) :
  0 < p ->
  let pct := X.Qcround (d / p * Zc 100) in
  let d' := X.Qcround (p * (pct / Zc 100) / Zc 100) * Zc 100 in
  d - (p / Zc 200 + Zc 50) <= d' /\ d' <= d + (p / Zc 200 + Zc 50).
Proof.
  intros Hpos pct d'. subst d'.
  pose proof (Qcround_bounds (d / p * Zc 100)) as [Hlo1 Hhi1].
  fold pct in Hlo1, Hhi1.
  pose proof (Qcround_bounds (p * (pct / Zc 100) / Zc 100)) as [Hlo2 Hhi2].
  assert (Hx : ((d / p)%Qc * p == d)%Q).
  { assert (E : d / p * p = d) by (field; now apply Qclt_nonzero).
    pose proof (Qred_correct ((d / p)%Qc * p)%Q) as R.
    change (Qred ((d / p)%Qc * p)%Q) with (this (d / p * p)) in R.
    rewrite E in R. now symmetry. }
  apply round_trip_error_Qc with (x := d / p) (pct := pct); assumption.
Qed.

Lemma round_trip_slack (p : Qc) :
  0 < p -> p / Zc 200 + Zc 50 <= p / Zc 100 + Zc 100.
Proof.
  intros Hp. qc_to_q. lra.
Qed.

End Rationals.

(** The operations of [xnum] on finite values, and the statements that rest
    on them. *)

Section Exact.

Variable pow : xnum -> xnum -> xnum.
Let exact : Numeric xnum := X.numeric pow.
Local Existing Instance exact.
Local Open Scope Qc_scope.

Lemma x_max_fin (p q : Qc) : X.max (Fin p) (Fin q) = Fin (X.Qcmax p q).
Proof. unfold X.max, X.ltb, X.Qcmax. now destruct (p ?= q). Qed.

Lemma x_div_fin (p q : Qc) : q <> 0 -> X.div (Fin p) (Fin q) = Fin (p / q).
Proof.
  intros Hq. unfold X.div. destruct (q ?= 0) eqn:E; try reflexivity.
  apply Qceq_alt in E. contradiction.
Qed.

Lemma x_ltb_fin (p q : Qc) : X.ltb (Fin p) (Fin q) = true <-> p < q.
Proof.
  unfold X.ltb. rewrite Qclt_alt. destruct (p ?= q); split; congruence.
Qed.

Lemma x_leb_fin (p q : Qc) : X.leb (Fin p) (Fin q) = true <-> p <= q.
Proof.
  unfold X.leb, X.ltb, X.eqb. rewrite Qcle_alt.
  destruct (p ?= q); split; simpl; congruence.
Qed.

Lemma x_scaled_inf_not_finite (q : Qc) (pos : bool) :
  X.is_finite (X.scaled_inf q pos) = false.
Proof. unfold X.scaled_inf. destruct (q ?= 0), pos; reflexivity. Qed.

Lemma x_mul_comm (a b : xnum) : X.mul a b = X.mul b a.
Proof.
  destruct a, b; simpl; try reflexivity.
  now rewrite Qcmult_comm.
Qed.

Lemma x_lit (z : Z) : lit z = Fin (Zc z).
Proof. reflexivity. Qed.

Lemma x_div_lit (p : Qc) (z : Z) :
  z <> 0%Z -> (Fin p / lit z)%num = Fin (p / Zc z).
Proof. intros Hz. apply x_div_fin. now apply lit_nonzero. Qed.

Lemma x_compound_fin (a g : Qc) (k : nat) :
  compound (Fin a) (Fin g) k = Fin (a * g ^ k).
Proof.
  induction k as [|k IH].
  - simpl. f_equal. ring.
  - change (compound (Fin a) (Fin g) (S k))
      with (compound (Fin a) (Fin g) k * Fin g)%num.
    rewrite IH. simpl. f_equal. ring.
Qed.

Lemma x_mul_fin (p q : Qc) : (Fin p * Fin q)%num = Fin (p * q).
Proof. reflexivity. Qed.

Lemma x_add_fin (p q : Qc) : (Fin p + Fin q)%num = Fin (p + q).
Proof. reflexivity. Qed.

Lemma x_sub_fin (p q : Qc) : (Fin p - Fin q)%num = Fin (p - q).
Proof. reflexivity. Qed.

Lemma x_max_fin' (p q : Qc) : Math_max (Fin p) (Fin q) = Fin (X.Qcmax p q).
Proof. apply x_max_fin. Qed.

Lemma x_div_fin' (p q : Qc) : q <> 0 -> (Fin p / Fin q)%num = Fin (p / q).
Proof. apply x_div_fin. Qed.

Ltac nonzero :=
  first [ assumption
        | apply lit_nonzero; lia
        | apply Qclt_nonzero; assumption ].

(** Pushes the operations of the engine through finite values. *)
Ltac xnorm :=
  rewrite ?x_lit;
  repeat first
    [ rewrite x_mul_fin | rewrite x_add_fin | rewrite x_sub_fin
    | rewrite x_max_fin' | rewrite x_div_fin' by nonzero ].

(** The stated and the effective down payment of finite inputs. *)
Lemma actualDownPayment_fin (inputs : Inputs xnum) (p d : Qc) :
  purchasePrice inputs = Fin p -> downPayment inputs = Fin d ->
  let s :=
    match downPaymentType inputs with
    | amount => d
    | percent => p * d / Zc 100
    end in
  downPaymentAmount inputs = Fin s /\
  actualDownPayment inputs =
    Fin (X.Qcmax s (Zc 20 / Zc 100 * p)).
Proof.
  intros Hp Hd s.
  assert (Hs : downPaymentAmount inputs = Fin s).
  { unfold downPaymentAmount, s. rewrite Hp, Hd.
    destruct (downPaymentType inputs); [reflexivity|]. now xnorm. }
  split; [exact Hs|].
  unfold actualDownPayment. rewrite Hs.
  unfold minimumDownPayment. cbv zeta. rewrite Hp. now xnorm.
Qed.

(** C6.  With a price of at least 1 and a non-negative down payment (an
    amount or a percentage, any finite value in fact), the effective
    down-payment percentage that the engine reports is at least 20. *)
Theorem effective_percent_at_least_20 (inputs : Inputs xnum) (p d : Qc) :
  purchasePrice inputs = Fin p ->
  downPayment inputs = Fin d ->
  Zc 1 <= p ->
  0 <= d ->
  X.leb (lit 20) (downPaymentPercent (calculateResults inputs)) = true.
Proof.
  intros Hp Hd Hone _.
  assert (Hpos : 0 < p) by (now apply Qclt_le_trans with (Zc 1)).
  destruct (actualDownPayment_fin inputs Hp Hd) as [_ Ha].
  change (downPaymentPercent (calculateResults inputs))
    with (actualDownPayment inputs / purchasePrice inputs * lit 100)%num.
  rewrite Ha, Hp. xnorm. apply x_leb_fin.
  apply percent_at_least_20; [exact Hpos | apply Qcmax_ge_r].
Qed.

(** C10.  With a positive price and a non-negative stated down payment, the
    mortgage amount is at most 80% of the price; it is also non-negative when
    the stated down-payment amount is at most the price. *)
Theorem mortgage_at_most_80_percent (inputs : Inputs xnum) (p d : Qc) :
  purchasePrice inputs = Fin p ->
  downPayment inputs = Fin d ->
  0 < p ->
  0 <= d ->
  let r := calculateResults inputs in
  X.leb (mortgageAmount r) (Fin (Q2Qc (80 # 100)) * purchasePrice inputs)%num = true /\
  (X.leb (downPaymentAmount inputs) (purchasePrice inputs) = true ->
   X.leb (lit 0) (mortgageAmount r) = true).
Proof.
  intros Hp Hd Hpos _ r. subst r.
  destruct (actualDownPayment_fin inputs Hp Hd) as [Hs Ha].
  change (mortgageAmount (calculateResults inputs))
    with (purchasePrice inputs - actualDownPayment inputs)%num.
  rewrite Ha, Hs, Hp. clear Ha Hs. xnorm. split.
  - apply x_leb_fin. apply loan_at_most_80, Qcmax_ge_r.
  - intros Hle. apply x_leb_fin in Hle. apply x_leb_fin.
    apply loan_nonnegative, Qcmax_lub; [exact Hle|].
    now apply floor_at_most_price.
Qed.

Lemma x_round_fin (q : Qc) : Math_round (Fin q) = Fin (X.Qcround q).
Proof. reflexivity. Qed.

(** The rent after vacancy and the operating expenses of finite inputs. *)
Lemma rent_and_expenses_fin (inputs : Inputs xnum) (m v t i c pm mt u o : Qc) :
  monthlyRent inputs = Fin m ->
  vacancyRate inputs = Fin v ->
  propertyTaxes inputs = Fin t ->
  insurance inputs = Fin i ->
  condoFees inputs = Fin c ->
  propertyManagement inputs = Fin pm ->
  maintenance inputs = Fin mt ->
  utilities inputs = Fin u ->
  otherExpenses inputs = Fin o ->
  let r := calculateResults inputs in
  monthlyRentAfterVacancy r = Fin (m * (1 - v / Zc 100)) /\
  monthlyExpenses r =
    Fin (t / Zc 12 + i / Zc 12 + c + m * pm / Zc 100 + m * mt / Zc 100 + u + o).
Proof.
  intros Hm Hv Ht Hi Hc Hpm Hmt Hu Ho r. split.
  - change (monthlyRentAfterVacancy r)
      with (monthlyRent inputs * (lit 1 - vacancyRate inputs / lit 100))%num.
    rewrite Hm, Hv. now xnorm.
  - change (monthlyExpenses r) with (monthlyOperatingExpenses inputs).
    unfold monthlyOperatingExpenses. cbv zeta.
    rewrite Hm, Ht, Hi, Hc, Hpm, Hmt, Hu, Ho. now xnorm.
Qed.

(** In exact arithmetic the repeated products of the schedule are powers:
    in year [y] the rental income is
    [monthlyRentAfterVacancy * 12 * (1 + annualRentIncrease/100)^(y-1)] and
    the operating expenses are [monthlyOperatingExpenses * 12 * 1.02^(y-1)]. *)
Lemma schedule_closed_forms (inputs : Inputs xnum) (a e g : Qc) (y : nat) :
  let r := calculateResults inputs in
  monthlyRentAfterVacancy r = Fin a ->
  monthlyExpenses r = Fin e ->
  annualRentIncrease inputs = Fin g ->
  (1 <= y <= 30)%nat ->
  exists row,
    nth_error (cashFlowSchedule r) (y - 1) = Some row /\
    year row = Z.of_nat y /\
    rentalIncome row = Fin (a * Zc 12 * (1 + g / Zc 100) ^ (y - 1)) /\
    operatingExpenses row = Fin (e * Zc 12 * Q2Qc (102 # 100) ^ (y - 1)) /\
    cashFlow row =
      (rentalIncome row - operatingExpenses row - lit 12 * monthlyPayment r)%num.
Proof.
  intros r Ha He Hg Hy.
  pose proof (@cashFlowSchedule_rows _ exact inputs) as Hrows.
  cbv zeta in Hrows. fold r in Hrows. rewrite Hrows, Ha, He, Hg.
  assert (Hk : (y - 1 < 30)%nat) by lia.
  eexists. split; [|split; [|split; [|split]]].
  - apply rows_nth. now apply projection_years_nth.
  - simpl year. lia.
  - simpl rentalIncome. xnorm. now rewrite x_compound_fin.
  - simpl operatingExpenses. xnorm.
    change (@lit_1_02 xnum exact) with (Fin (Q2Qc (102 # 100))).
    now rewrite x_compound_fin.
  - simpl. f_equal. apply x_mul_comm.
Qed.

(** The state after the selector is switched to [percent], and back. *)
Lemma switch_to_percent (inputs : Inputs xnum) (p d : Qc) :
  purchasePrice inputs = Fin p ->
  downPayment inputs = Fin d ->
  p <> 0 ->
  let there := handleInputChange inputs (SetDownPaymentType percent) in
  purchasePrice there = Fin p /\
  downPaymentType there = percent /\
  downPayment there = Fin (X.Qcround (d / p * Zc 100)).
Proof.
  intros Hp Hd Hnz there.
  assert (H1 : purchasePrice there = purchasePrice inputs) by reflexivity.
  assert (H2 : downPayment there =
               amount_to_percent (purchasePrice inputs) (downPayment inputs))
    by reflexivity.
  rewrite H1, H2, Hp, Hd.
  split; [reflexivity | split; [reflexivity|]].
  unfold amount_to_percent. xnorm. now rewrite x_round_fin.
Qed.

Lemma switch_to_amount (inputs : Inputs xnum) (p c : Qc) :
  purchasePrice inputs = Fin p ->
  downPayment inputs = Fin c ->
  let back := handleInputChange inputs (SetDownPaymentType amount) in
  purchasePrice back = Fin p /\
  downPaymentType back = amount /\
  downPayment back = Fin (X.Qcround (p * (c / Zc 100) / Zc 100) * Zc 100).
Proof.
  intros Hp Hd back.
  assert (H1 : purchasePrice back = purchasePrice inputs) by reflexivity.
  assert (H2 : downPayment back =
               percent_to_amount (purchasePrice inputs) (downPayment inputs))
    by reflexivity.
  rewrite H1, H2, Hp, Hd.
  split; [reflexivity | split; [reflexivity|]].
  unfold percent_to_amount. xnorm. rewrite x_round_fin. now xnorm.
Qed.

(** C9.  Switching the down payment from an amount to a percentage and back,
    at a fixed price between 0 and 10^15, keeps the price, ends in amount
    mode, and returns an amount within [purchasePrice/100 + 100] of the
    original.  The percentage is rounded to a whole number and the amount to
    the nearest hundred, so the result is not the original amount up to a
    rounding of the arithmetic. *)
Theorem down_payment_round_trip (inputs : Inputs xnum) (p d : Qc) :
  purchasePrice inputs = Fin p ->
  downPayment inputs = Fin d ->
  0 < p ->
  p <= Zc 1000000000000000 ->
  0 <= d ->
  d <= p ->
  let there := handleInputChange inputs (SetDownPaymentType percent) in
  let back := handleInputChange there (SetDownPaymentType amount) in
  purchasePrice back = Fin p /\
  downPaymentType back = amount /\
  exists d' : Qc,
    downPayment back = Fin d' /\
    d - (p / Zc 100 + Zc 100) <= d' /\
    d' <= d + (p / Zc 100 + Zc 100).
Proof.
  intros Hp Hd Hpos _ _ _ there back.
  destruct (switch_to_percent inputs Hp Hd (Qclt_nonzero Hpos))
    as [Hp1 [_ Hd1]].
  fold there in Hp1, Hd1.
  destruct (switch_to_amount there Hp1 Hd1) as [Hp2 [Ht2 Hd2]].
  fold back in Hp2, Ht2, Hd2.
  split; [exact Hp2|]. split; [exact Ht2|].
  eexists. split; [exact Hd2|].
  destruct (round_trip_error d Hpos) as [Hlo Hhi].
  pose proof (round_trip_slack Hpos) as Hs.
  split.
  - eapply Qcle_trans; [|exact Hlo].
    unfold Qcminus. apply Qcplus_le_compat; [apply Qcle_refl|].
    now apply Qcopp_le_compat.
  - eapply Qcle_trans; [exact Hhi|].
    apply Qcplus_le_compat; [apply Qcle_refl | exact Hs].
Qed.

Lemma x_div_zero_not_finite (a : xnum) :
  X.is_finite (a / Fin 0)%num = false.
Proof.
  destruct a; try reflexivity.
  change (X.is_finite (X.scaled_inf q true) = false).
  apply x_scaled_inf_not_finite.
Qed.

Lemma x_mul_not_finite (a b : xnum) :
  X.is_finite a = false -> X.is_finite (a * b)%num = false.
Proof.
  destruct a, b; simpl; intros H; try reflexivity; try discriminate;
    apply x_scaled_inf_not_finite.
Qed.

Lemma x_zero_times (z : Z) : (Fin 0 * lit z)%num = Fin 0.
Proof. rewrite x_lit, x_mul_fin. f_equal. ring. Qed.

Lemma finite_results_false_percent (r : Results xnum) :
  X.is_finite (downPaymentPercent r) = false -> finite_results r = false.
Proof.
  intros H. unfold finite_results. rewrite H.
  now rewrite andb_false_r.
Qed.

Lemma finite_results_false_multiplier (r : Results xnum) :
  X.is_finite (grossRentMultiplier r) = false -> finite_results r = false.
Proof.
  intros H. unfold finite_results. rewrite H.
  now rewrite ?andb_false_r, ?andb_false_l.
Qed.

(** C1, as the code has it.  The engine has no guard on the price or the
    rent and no error outcome: it returns a result set for every input.  When
    the price is 0 the reported down-payment percentage and the cap rate are
    not finite; when the monthly rent is 0 the gross rent multiplier, the
    expense ratio and the break-even occupancy are not finite. *)
Theorem zero_denominators_propagate (inputs : Inputs xnum) :
  let r := calculateResults inputs in
  (purchasePrice inputs = Fin 0 ->
   X.is_finite (downPaymentPercent r) = false /\
   X.is_finite (capRate r) = false) /\
  (monthlyRent inputs = Fin 0 ->
   X.is_finite (grossRentMultiplier r) = false /\
   X.is_finite (expenseRatio r) = false /\
   X.is_finite (breakEvenOccupancy r) = false) /\
  (purchasePrice inputs = Fin 0 \/ monthlyRent inputs = Fin 0 ->
   finite_results r = false).
Proof.
  intros r.
  assert (Hprice : purchasePrice inputs = Fin 0 ->
                   X.is_finite (downPaymentPercent r) = false /\
                   X.is_finite (capRate r) = false).
  { intros Hp. split.
    - change (downPaymentPercent r)
        with (actualDownPayment inputs / purchasePrice inputs * lit 100)%num.
      rewrite Hp. apply x_mul_not_finite, x_div_zero_not_finite.
    - change (capRate r)
        with (netOperatingIncome r / purchasePrice inputs * lit 100)%num.
      rewrite Hp. apply x_mul_not_finite, x_div_zero_not_finite. }
  assert (Hrent : monthlyRent inputs = Fin 0 ->
                  X.is_finite (grossRentMultiplier r) = false /\
                  X.is_finite (expenseRatio r) = false /\
                  X.is_finite (breakEvenOccupancy r) = false).
  { intros Hm. split; [|split].
    - change (grossRentMultiplier r)
        with (purchasePrice inputs / (monthlyRent inputs * lit 12))%num.
      rewrite Hm, x_zero_times. apply x_div_zero_not_finite.
    - change (expenseRatio r)
        with (monthlyExpenses r * lit 12 / (monthlyRent inputs * lit 12)
              * lit 100)%num.
      rewrite Hm, x_zero_times. apply x_mul_not_finite, x_div_zero_not_finite.
    - change (breakEvenOccupancy r)
        with (totalMonthlyExpenses r / monthlyRent inputs * lit 100)%num.
      rewrite Hm. apply x_mul_not_finite, x_div_zero_not_finite. }
  split; [exact Hprice|]. split; [exact Hrent|].
  intros [Hp|Hm].
  - apply finite_results_false_percent. now apply Hprice.
  - apply finite_results_false_multiplier. now apply Hrent.
Qed.

End Exact.

(** ** The engine at concrete inputs

    The theorems above, applied to the initial state of the component and to
    variations of it, in the exact reading with [X.pow_whole]. *)

(** Closes a goal [Fin p = Fin q] between closed rationals. *)
Ltac fin_eq := lazy; apply f_equal; apply Qc_is_canon; reflexivity.

Section Evaluations.

Local Existing Instance exact_numbers.
Local Open Scope Qc_scope.

Lemma monthly_payment_formula_witness :
  monthlyPayment (calculateResults zero_interest_inputs) =
    (mortgageAmount (calculateResults zero_interest_inputs)
     / (amortizationPeriod zero_interest_inputs * lit 12))%num /\
  (let inputs := set_number Key.interestRate (lit 0) low_down_payment_inputs in
   monthlyPayment (calculateResults inputs) =
     (mortgageAmount (calculateResults inputs)
      / (amortizationPeriod inputs * lit 12))%num) /\
  (let r := (interestRate initial_inputs / lit 100 / lit 12)%num in
   let n := (amortizationPeriod initial_inputs * lit 12)%num in
   monthlyPayment (calculateResults initial_inputs) =
     (mortgageAmount (calculateResults initial_inputs)
      * (r * Math_pow (lit 1 + r) n) / (Math_pow (lit 1 + r) n - lit 1))%num).
Proof.
  split; [|split].
  - apply (proj1 (monthly_payment_formula zero_interest_inputs)).
    reflexivity.
  - apply (proj1 (proj2 (monthly_payment_formula
                           (set_number Key.interestRate (lit 0)
                                       low_down_payment_inputs)))).
    lazy; reflexivity.
  - apply (proj2 (proj2 (monthly_payment_formula initial_inputs))).
    lazy; reflexivity.
Defined.

Lemma cash_on_cash_guarded_witness :
  cashOnCash (calculateResults low_down_payment_inputs) =
    (annualCashFlow (calculateResults low_down_payment_inputs)
     / lit 105000 * lit 100)%num /\
  cashOnCash
    (calculateResults (set_number Key.closingCosts (lit (-200000)) initial_inputs))
    = lit 0 /\
  cashOnCash (calculateResults nothing_invested_inputs) = lit 0.
Proof.
  split; [|split].
  - assert (E : (Math_max (downPayment low_down_payment_inputs)
                          (lit 20 / lit 100 * purchasePrice low_down_payment_inputs)
                 + closingCosts low_down_payment_inputs
                 + renovationCosts low_down_payment_inputs)%num = lit 105000)
      by fin_eq.
    rewrite <- E.
    apply (proj1 (cash_on_cash_guarded low_down_payment_inputs)).
    lazy; reflexivity.
  - apply (proj1 (proj2 (cash_on_cash_guarded
                           (set_number Key.closingCosts (lit (-200000))
                                       initial_inputs)))).
    lazy; reflexivity.
  - apply (proj2 (proj2 (cash_on_cash_guarded nothing_invested_inputs))).
    fin_eq.
Defined.

Lemma effective_percent_at_least_20_witness :
  X.leb (lit 20) (downPaymentPercent (calculateResults low_down_payment_inputs))
  = true.
Proof.
  apply (@effective_percent_at_least_20 X.pow_whole low_down_payment_inputs
           (Zc 500000) (Zc 50000)).
  - reflexivity.
  - reflexivity.
  - lazy; discriminate.
  - lazy; discriminate.
Defined.

Lemma mortgage_at_most_80_percent_witness :
  let r := calculateResults low_down_payment_inputs in
  X.leb (mortgageAmount r)
        (Fin (Q2Qc (80 # 100)) * purchasePrice low_down_payment_inputs)%num = true /\
  (X.leb (downPaymentAmount low_down_payment_inputs)
         (purchasePrice low_down_payment_inputs) = true ->
   X.leb (lit 0) (mortgageAmount r) = true).
Proof.
  apply (@mortgage_at_most_80_percent X.pow_whole low_down_payment_inputs
           (Zc 500000) (Zc 50000)).
  - reflexivity.
  - reflexivity.
  - lazy; reflexivity.
  - lazy; discriminate.
Defined.


(** Year 4 of the initial state in exact arithmetic: the three products in
    turn are the cube, 28500 * 1.02^3 = 30244.428. *)
Example schedule_year_4 :
  let r := calculateResults initial_inputs in
  exists row,
    nth_error (cashFlowSchedule r) (4 - 1) = Some row /\
    year row = Z.of_nat 4 /\
    rentalIncome row =
      Fin (Zc 2375 * Zc 12 * (1 + Zc 2 / Zc 100) ^ (4 - 1)) /\
    operatingExpenses row =
      Fin (Q2Qc (2600 # 3) * Zc 12 * Q2Qc (102 # 100) ^ (4 - 1)) /\
    cashFlow row =
      (rentalIncome row - operatingExpenses row - lit 12 * monthlyPayment r)%num.
Proof.
  apply (@schedule_closed_forms X.pow_whole initial_inputs
           (Zc 2375) (Q2Qc (2600 # 3)) (Zc 2) 4%nat).
  - fin_eq.
  - fin_eq.
  - reflexivity.
  - lia.
Qed.

Example schedule_year_4_value :
  Fin (Zc 2375 * Zc 12 * (1 + Zc 2 / Zc 100) ^ (4 - 1)) = Fin (Q2Qc (30244428 # 1000)).
Proof. fin_eq. Qed.

Lemma down_payment_round_trip_witness :
  let inputs := set_number Key.downPayment (lit 101000) initial_inputs in
  let there := handleInputChange inputs (SetDownPaymentType percent) in
  let back := handleInputChange there (SetDownPaymentType amount) in
  purchasePrice back = Fin (Zc 500000) /\
  downPaymentType back = amount /\
  exists d' : Qc,
    downPayment back = Fin d' /\
    Zc 101000 - (Zc 500000 / Zc 100 + Zc 100) <= d' /\
    d' <= Zc 101000 + (Zc 500000 / Zc 100 + Zc 100).
Proof.
  apply (@down_payment_round_trip X.pow_whole
           (set_number Key.downPayment (lit 101000) initial_inputs)
           (Zc 500000) (Zc 101000)).
  - reflexivity.
  - reflexivity.
  - lazy; reflexivity.
  - lazy; discriminate.
  - lazy; discriminate.
  - lazy; discriminate.
Defined.

Lemma zero_denominators_propagate_witness :
  (X.is_finite (downPaymentPercent (calculateResults zero_price_inputs)) = false /\
   X.is_finite (capRate (calculateResults zero_price_inputs)) = false) /\
  (X.is_finite (grossRentMultiplier (calculateResults zero_rent_inputs)) = false /\
   X.is_finite (expenseRatio (calculateResults zero_rent_inputs)) = false /\
   X.is_finite (breakEvenOccupancy (calculateResults zero_rent_inputs)) = false) /\
  finite_results (calculateResults zero_price_inputs) = false.
Proof.
  split; [|split].
  - apply (proj1 (zero_denominators_propagate X.pow_whole zero_price_inputs)).
    reflexivity.
  - apply (proj1 (proj2 (zero_denominators_propagate X.pow_whole zero_rent_inputs))).
    reflexivity.
  - apply (proj2 (proj2 (zero_denominators_propagate X.pow_whole zero_price_inputs))).
    left. reflexivity.
Defined.

(** C1, as the specification has it, fails: with a purchase price of 0 (and
    the other fields at their initial values) the engine does not report an
    invalid input; it returns a result set whose down-payment percentage is
    [Infinity]. *)
Lemma zero_price_not_rejected :
  X.leb (purchasePrice zero_price_inputs) (lit 0) = true /\
  downPaymentPercent (calculateResults zero_price_inputs) = PInf /\
  finite_results (calculateResults zero_price_inputs) = false.
Proof. lazy. repeat split. Qed.

(** A negative price is not rejected either: every value is finite, and the
    reported percentage is -20. *)
Example negative_price_not_rejected :
  let r := calculateResults negative_price_inputs in
  mortgageAmount r = lit (-600000) /\
  downPaymentPercent r = lit (-20) /\
  finite_results r = true.
Proof. cbv zeta. split; [fin_eq | split; [fin_eq | lazy; reflexivity]]. Qed.

(** The floor of 20% is the rational 1/5 of the price. *)
Example twenty_percent_exact : (lit 20 / lit 100)%num = Fin (Q2Qc (1 # 5)).
Proof. fin_eq. Qed.

(** The round trip of the initial down payment is exact; one of 101000 comes
    back as 100000. *)
Example round_trip_initial :
  downPayment
    (handleInputChange
       (handleInputChange initial_inputs (SetDownPaymentType percent))
       (SetDownPaymentType amount))
  = lit 100000.
Proof. fin_eq. Qed.

Example round_trip_101000 :
  downPayment
    (handleInputChange
       (handleInputChange (set_number Key.downPayment (lit 101000) initial_inputs)
                          (SetDownPaymentType percent))
       (SetDownPaymentType amount))
  = lit 100000.
Proof. fin_eq. Qed.

(** The first scenario of the specification. *)
Example initial_scenario :
  let r := calculateResults initial_inputs in
  mortgageAmount r = lit 400000 /\
  downPaymentPercent r = lit 20 /\
  monthlyRentAfterVacancy r = lit 2375 /\
  monthlyExpenses r = Fin (Q2Qc (2600 # 3)).
Proof. cbv zeta. repeat split; fin_eq. Qed.

(** The payment formula on a loan of 1000 at 12% over one year: 88.85 a
    month, to the cent. *)
Example mortgage_payment_one_year :
  let payment := mortgage_payment (lit 1000) (lit 12) (lit 1) in
  X.ltb (Fin (Q2Qc (8884 # 100))) payment = true /\
  X.ltb payment (Fin (Q2Qc (8885 # 100))) = true.
Proof. lazy. split; reflexivity. Qed.

(** The floor: a stated down payment of 50000 gives the same result set. *)
Example floor_scenario :
  mortgageAmount (calculateResults low_down_payment_inputs) = lit 400000 /\
  downPaymentPercent (calculateResults low_down_payment_inputs) = lit 20.
Proof. split; fin_eq. Qed.

End Evaluations.

(** ** The engine on binary64 numbers

    The same definitions evaluated on the numbers the code runs on.  None of
    the values below passes through [Math.pow], so they hold for any host. *)

Section Binary64.

Variable pow : float -> float -> float.
Let binary64 : Numeric float := F64.numeric pow.
Local Existing Instance binary64.

(** The minimum down payment is [0.2 * purchasePrice]: the quotient
    [20 / 100] is the double nearest to 0.2. *)
Example twenty_percent_binary64 :
  (lit 20 / lit 100)%num = 0x1.999999999999ap-3%float.
Proof. reflexivity. Qed.

Example initial_scenario_binary64 :
  let r := calculateResults initial_inputs in
  mortgageAmount r = 400000%float /\
  downPaymentPercent r = 20%float /\
  monthlyRentAfterVacancy r = 2375%float.
Proof. lazy. repeat split. Qed.

(** A purchase price of 0: the result set is produced all the same, with an
    infinite down-payment percentage and cap rate. *)
Example zero_price_binary64 :
  let r := calculateResults zero_price_inputs in
  mortgageAmount r = (-100000)%float /\
  downPaymentPercent r = PrimFloat.infinity /\
  capRate r = PrimFloat.infinity.
Proof. lazy. repeat split. Qed.

(** In percent mode the stated amount is 0 as well, and the percentage is
    [NaN]; nothing is invested and the cash-on-cash return is 0. *)
Example nothing_invested_binary64 :
  let r := calculateResults nothing_invested_inputs in
  PrimFloat.is_nan (downPaymentPercent r) = true /\
  initialInvestment nothing_invested_inputs = 0%float /\
  cashOnCash r = 0%float.
Proof. lazy. repeat split. Qed.

(** A monthly rent of 0: the gross rent multiplier is infinite. *)
Example zero_rent_binary64 :
  grossRentMultiplier (calculateResults zero_rent_inputs) = PrimFloat.infinity.
Proof. reflexivity. Qed.

Example round_binary64 :
  F64.round 2.5%float = 3%float /\
  F64.round (-2.5)%float = (-2)%float /\
  F64.round 20.25%float = 20%float /\
  F64.round 0x1.fffffffffffffp-2%float = 0%float /\
  F64.round (-0.25)%float = (-0)%float.
Proof. lazy. repeat split. Qed.

Example round_trip_binary64 :
  downPayment
    (handleInputChange
       (handleInputChange initial_inputs (SetDownPaymentType percent))
       (SetDownPaymentType amount))
  = 100000%float.
Proof. reflexivity. Qed.

End Binary64.

(** ** Closed evaluations in binary64

    The engine and the handler on doubles, with the sample power function
    [pow_whole64]. *)

Section Binary64Evaluations.

Local Existing Instance binary64_numbers.


(** C6, as the specification has it, fails on doubles: a positive price so
    small that 20% of it is rounded, here the smallest normal double with a
    down payment of 0, has an effective percentage of 19.999999999999996;
    at the smallest positive double the percentage is 0. *)
Lemma tiny_price_below_20_percent :
  let at_price (p : float) :=
    set_number Key.purchasePrice p
      (set_number Key.downPayment 0%float initial_inputs) in
  let small := at_price 0x1p-1022%float in
  let smallest := at_price 0x1p-1074%float in
  PrimFloat.ltb 0 (purchasePrice small) = true /\
  PrimFloat.leb 0 (downPayment small) = true /\
  downPaymentPercent (calculateResults small) = 0x1.3ffffffffffffp+4%float /\
  PrimFloat.ltb (downPaymentPercent (calculateResults small)) 20 = true /\
  PrimFloat.ltb 0 (purchasePrice smallest) = true /\
  downPaymentPercent (calculateResults smallest) = 0%float.
Proof. lazy. repeat split. Qed.

(** C9, as the specification has it, fails: at the price 500000 the amount
    101000 becomes 20 percent and comes back as 100000, and the amount 2000
    becomes 0 percent and comes back as 0. *)
Lemma round_trip_changes_amount :
  let trip (d : float) :=
    let inputs := set_number Key.downPayment d initial_inputs in
    let there := handleInputChange inputs (SetDownPaymentType percent) in
    handleInputChange there (SetDownPaymentType amount) in
  purchasePrice (trip 101000%float) = 500000%float /\
  downPayment (handleInputChange
                 (set_number Key.downPayment 101000%float initial_inputs)
                 (SetDownPaymentType percent)) = 20%float /\
  downPayment (trip 101000%float) = 100000%float /\
  downPayment (trip 2000%float) = 0%float.
Proof. lazy. repeat split. Qed.

(** The warning on the down payment at the smallest positive price: 20% of
    that price is rounded to 0, the percentage is 0 and the warning is
    shown. *)
Example down_payment_warning_at_tiny_price :
  let inputs :=
    set_number Key.purchasePrice 0x1p-1074%float
      (set_number Key.downPayment 0%float initial_inputs) in
  showsDownPaymentWarning (calculateResults inputs) = true.
Proof. reflexivity. Qed.

(** A down payment just below the floor: at the price 3 the amount 0.6 is
    less than the floor 0.6000000000000001, and the closing costs of 5000
    absorb the difference; the figure shown and the one used are the same
    double. *)
Example displayed_investment_absorbs_floor :
  let inputs :=
    set_number Key.purchasePrice 3%float
      (set_number Key.downPayment 0x1.3333333333333p-1%float initial_inputs) in
  PrimFloat.ltb (downPayment inputs) (minimumDownPayment inputs) = true /\
  displayedInitialInvestment inputs = 0x1.388999999999ap+12%float /\
  initialInvestment inputs = 0x1.388999999999ap+12%float.
Proof. lazy. repeat split. Qed.

End Binary64Evaluations.

(** ** The handler on number-typed states *)

Section HandlerFacts.

Context {num : Type} {N : Numeric num}.
Local Open Scope num_scope.

Lemma Key_eqb_refl (k : Key.t) : Key.eqb k k = true.
Proof. now destruct k. Qed.

Lemma Key_eqb_eq (j k : Key.t) : Key.eqb j k = true <-> j = k.
Proof. destruct j, k; simpl; split; intros H; try reflexivity; discriminate. Qed.

Lemma get_set_number (k name : Key.t) (v : num) (inputs : Inputs num) :
  get k (set_number name v inputs) = if Key.eqb name k then v else get k inputs.
Proof. now destruct k, name. Qed.

(** X1.  The down payment that is typed never stays above its bound: 100 in
    percent mode, the purchase price in amount mode.  A value within the
    bound is stored as it is, a value above it is replaced by the bound.
    (The bound is assumed not to be greater than itself, as every number
    is.) *)
Theorem typed_down_payment_is_clamped (inputs : Inputs num) (v : num) :
  let bound :=
    match downPaymentType inputs with
    | percent => lit 100
    | amount => purchasePrice inputs
    end in
  (bound >? bound) = false ->
  let after := handleInputChange inputs (SetNumber Key.downPayment v) in
  (downPayment after >? bound) = false /\
  ((v >? bound) = false -> downPayment after = v) /\
  ((v >? bound) = true -> downPayment after = bound).
Proof.
  intros bound Hirr after.
  assert (Hafter : downPayment after = if v >? bound then bound else v).
  { subst after bound. unfold handleInputChange.
    destruct (downPaymentType inputs); reflexivity. }
  rewrite Hafter. destruct (v >? bound) eqn:Hv.
  - repeat split; [exact Hirr | discriminate].
  - repeat split; [exact Hv | discriminate].
Qed.

(** X2.  A change reaches the field it names and, beside it, the down payment
    only: every other number field, the down-payment type and the property
    type are left as they were. *)
Theorem changes_are_local (inputs : Inputs num) (change : Change num) :
  let after := handleInputChange inputs change in
  (forall k v, change = SetNumber k v -> k <> Key.downPayment ->
               get k after = v) /\
  (forall k, k <> Key.downPayment -> (forall v, change <> SetNumber k v) ->
             get k after = get k inputs) /\
  ((forall t, change <> SetDownPaymentType t) ->
   downPaymentType after = downPaymentType inputs) /\
  ((forall s, change <> SetPropertyType s) ->
   propertyType after = propertyType inputs).
Proof.
  intros after. subst after. split; [|split; [|split]].
  - intros k v -> Hk. unfold handleInputChange.
    destruct k; try reflexivity; now destruct (downPaymentType inputs).
  - intros k Hk Hchange. destruct change as [name v|t|s]; unfold handleInputChange.
    + assert (Hname : name <> k) by (intros ->; now apply (Hchange v)).
      destruct name, k; try (now contradiction Hname); try (now contradiction Hk);
        try reflexivity; now destruct (downPaymentType inputs).
    + destruct t, k; try reflexivity; now contradiction Hk.
    + now destruct k.
  - intros Hchange. destruct change as [name v|t|s]; unfold handleInputChange.
    + destruct name; try reflexivity;
        destruct (downPaymentType inputs) eqn:E; simpl; congruence.
    + now contradiction (Hchange t).
    + reflexivity.
  - intros Hchange. destruct change as [name v|t|s]; unfold handleInputChange.
    + destruct name; try reflexivity; now destruct (downPaymentType inputs).
    + now destruct t.
    + now contradiction (Hchange s).
Qed.

End HandlerFacts.

(** ** The schedule and the charts, whatever the arithmetic *)

Section ChartFacts.

Context {num : Type} {N : Numeric num}.
Local Open Scope num_scope.

Lemma firstn_snoc (A : Type) (l : list A) (n : nat) (x : A) :
  nth_error l n = Some x -> firstn (S n) l = firstn n l ++ [x].
Proof.
  revert n. induction l as [|a l IH]; intros [|n] H; simpl in *;
    try discriminate.
  - now inversion H.
  - now rewrite <- (IH n H).
Qed.

Lemma nth_error_firstn_lt (A : Type) (l : list A) (n k : nat) :
  (k < n)%nat -> nth_error (firstn n l) k = nth_error l k.
Proof.
  revert n k. induction l as [|a l IH]; intros [|n] [|k] H; simpl;
    try reflexivity; try lia.
  apply IH. lia.
Qed.

Lemma schedule_nth (inputs : Inputs num) (k : nat) :
  let r := calculateResults inputs in
  (k < 30)%nat ->
  nth_error (cashFlowSchedule r) k =
  Some {| year := Z.of_nat k + 1;
          rentalIncome :=
            compound (monthlyRentAfterVacancy r * lit 12)
                     (lit 1 + annualRentIncrease inputs / lit 100) k;
          operatingExpenses :=
            compound (monthlyExpenses r * lit 12) lit_1_02 k;
          mortgagePayment := monthlyPayment r * lit 12;
          cashFlow :=
            compound (monthlyRentAfterVacancy r * lit 12)
                     (lit 1 + annualRentIncrease inputs / lit 100) k
            - compound (monthlyExpenses r * lit 12) lit_1_02 k
            - monthlyPayment r * lit 12 |}.
Proof.
  intros r Hk. subst r. rewrite cashFlowSchedule_rows.
  apply rows_nth. now apply projection_years_nth.
Qed.

Lemma schedule_length (inputs : Inputs num) :
  List.length (cashFlowSchedule (calculateResults inputs)) = 30%nat.
Proof. rewrite cashFlowSchedule_rows. now rewrite rows_length. Qed.

Lemma rows_year_on_year (amp ari : num) (rent opex : num) (k : nat)
    (row next : CashFlowYear num) :
  nth_error (rows amp ari projection_years rent opex) k = Some row ->
  nth_error (rows amp ari projection_years rent opex) (S k) = Some next ->
  year next = (year row + 1)%Z /\
  rentalIncome next = rentalIncome row * (lit 1 + ari / lit 100) /\
  operatingExpenses next = operatingExpenses row * lit_1_02 /\
  mortgagePayment next = mortgagePayment row.
Proof.
  intros Hrow Hnext.
  assert (Hk : (S k < 30)%nat).
  { rewrite <- projection_years_length,
      <- (rows_length amp ari projection_years rent opex).
    apply nth_error_Some. congruence. }
  assert (Hy : nth_error projection_years k = Some (Z.of_nat k + 1)%Z)
    by (apply projection_years_nth; lia).
  assert (Hy' : nth_error projection_years (S k) = Some (Z.of_nat (S k) + 1)%Z)
    by (apply projection_years_nth; lia).
  rewrite (rows_nth _ _ _ _ _ _ Hy) in Hrow.
  rewrite (rows_nth _ _ _ _ _ _ Hy') in Hnext.
  injection Hrow as <-. injection Hnext as <-.
  cbn [year rentalIncome operatingExpenses mortgagePayment].
  split; [lia|]. split; [reflexivity|]. split; reflexivity.
Qed.

(** X3.  From one year of the schedule to the next, the rent is multiplied by
    [1 + annualRentIncrease / 100] and the operating expenses by 1.02, the
    mortgage payment stays and the year goes up by one; this is how the
    numbers are computed, so it holds to the last bit. *)
Theorem schedule_year_on_year
    (inputs : Inputs num) (k : nat) (row next : CashFlowYear num) :
  nth_error (cashFlowSchedule (calculateResults inputs)) k = Some row ->
  nth_error (cashFlowSchedule (calculateResults inputs)) (k + 1) = Some next ->
  year next = (year row + 1)%Z /\
  rentalIncome next =
    rentalIncome row * (lit 1 + annualRentIncrease inputs / lit 100) /\
  operatingExpenses next = operatingExpenses row * lit_1_02 /\
  mortgagePayment next = mortgagePayment row.
Proof.
  intros Hrow Hnext.
  rewrite cashFlowSchedule_rows in Hrow. rewrite cashFlowSchedule_rows in Hnext.
  rewrite Nat.add_1_r in Hnext.
  exact (rows_year_on_year _ _ _ _ _ Hrow Hnext).
Qed.

(** X4.  The cash-flow chart shows the first ten years of the schedule, fewer
    when the schedule is shorter (none before the first calculation): each
    point carries the year and the cash flow of its row.  For a calculated
    result set these are the years 1 to 10. *)
Theorem projection_chart_follows_schedule (results : Results num) :
  let data := prepareCashFlowProjectionData results in
  List.length data = Nat.min 10 (List.length (cashFlowSchedule results)) /\
  (forall k row,
      (k < 10)%nat ->
      nth_error (cashFlowSchedule results) k = Some row ->
      nth_error data k =
      Some {| Point.year := year row; Point.cashFlow := cashFlow row |}) /\
  (forall inputs, results = calculateResults inputs ->
                  map (@Point.year num) data = map Z.of_nat (seq 1 10)).
Proof.
  intros data. subst data. unfold prepareCashFlowProjectionData.
  split; [|split].
  - now rewrite length_map, length_firstn.
  - intros k row Hk Hrow.
    rewrite nth_error_map, nth_error_firstn_lt, Hrow by exact Hk.
    reflexivity.
  - intros inputs ->. rewrite map_map. cbn [Point.year].
    rewrite cashFlowSchedule_rows.
    change (fun x : CashFlowYear num => year x) with (@year num).
    rewrite <- firstn_map, rows_years. reflexivity.
Qed.

Lemma cumulativeCashFlow_step (results : Results num) (index : nat)
    (row : CashFlowYear num) :
  nth_error (cashFlowSchedule results) (index + 1) = Some row ->
  cumulativeCashFlow results (index + 1) =
  cumulativeCashFlow results index + cashFlow row.
Proof.
  intros Hrow. unfold cumulativeCashFlow.
  replace (index + 1 + 1)%nat with (S (index + 1)) by lia.
  rewrite (firstn_snoc _ _ Hrow), fold_left_app. reflexivity.
Qed.

Lemma nth_error_combine (A B : Type) (l1 : list A) (l2 : list B) (k : nat)
    (a : A) (b : B) :
  nth_error l1 k = Some a -> nth_error l2 k = Some b ->
  nth_error (combine l1 l2) k = Some (a, b).
Proof.
  revert l1 l2. induction k as [|k IH]; intros [|x l1] [|y l2] H1 H2;
    simpl in *; try discriminate.
  - now inversion H1; inversion H2.
  - now apply IH.
Qed.

Lemma cumulativeChartData_nth (results : Results num) (k : nat)
    (row : CashFlowYear num) :
  (k < 10)%nat ->
  nth_error (cashFlowSchedule results) k = Some row ->
  nth_error (cumulativeChartData results) k =
  Some {| Cumulative.year := year row;
          Cumulative.annualCashFlow := cashFlow row;
          Cumulative.cumulativeCashFlow := cumulativeCashFlow results k |}.
Proof.
  intros Hk Hrow. unfold cumulativeChartData.
  rewrite nth_error_map.
  rewrite (@nth_error_combine _ _ (seq 0 10)
             (firstn 10 (cashFlowSchedule results)) k k row).
  - reflexivity.
  - rewrite nth_error_seq. destruct (Nat.ltb_spec k 10); [reflexivity|lia].
  - now rewrite nth_error_firstn_lt.
Qed.

(** X5.  In the cumulative chart the first point accumulates the first cash flow
    on 0, and every later point adds its own annual cash flow to the
    cumulative figure of the point before it. *)
Theorem cumulative_chart_accumulates (results : Results num) :
  let data := cumulativeChartData results in
  (forall first,
      nth_error data 0 = Some first ->
      Cumulative.cumulativeCashFlow first =
      lit 0 + Cumulative.annualCashFlow first) /\
  (forall k point next,
      nth_error data k = Some point ->
      nth_error data (S k) = Some next ->
      Cumulative.cumulativeCashFlow next =
      Cumulative.cumulativeCashFlow point + Cumulative.annualCashFlow next).
Proof.
  intros data.
  assert (Hlen : List.length data
                 = Nat.min 10 (List.length (cashFlowSchedule results))).
  { subst data. unfold cumulativeChartData.
    rewrite length_map, length_combine, length_firstn, length_seq. lia. }
  assert (Hrow : forall k p, nth_error data k = Some p ->
                 (k < 10)%nat /\
                 exists row, nth_error (cashFlowSchedule results) k = Some row).
  { intros k p Hp.
    assert (Hk : (k < List.length data)%nat)
      by (apply nth_error_Some; congruence).
    rewrite Hlen in Hk. split; [lia|].
    destruct (nth_error (cashFlowSchedule results) k) as [row|] eqn:E.
    - now exists row.
    - apply nth_error_None in E. lia. }
  split.
  - intros first Hfirst.
    destruct (Hrow _ _ Hfirst) as [Hk [row Hr]].
    subst data. rewrite (cumulativeChartData_nth _ Hk Hr) in Hfirst.
    inversion Hfirst; subst first. simpl.
    unfold cumulativeCashFlow. change (0 + 1)%nat with 1%nat.
    now rewrite (firstn_snoc _ _ Hr).
  - intros k point next Hpoint Hnext.
    destruct (Hrow _ _ Hpoint) as [Hk [row Hr]].
    destruct (Hrow _ _ Hnext) as [Hk' [row' Hr']].
    subst data.
    rewrite (cumulativeChartData_nth _ Hk Hr) in Hpoint.
    rewrite (cumulativeChartData_nth _ Hk' Hr') in Hnext.
    inversion Hpoint; subst point. inversion Hnext; subst next. simpl.
    replace (S k) with (k + 1)%nat in * by lia.
    now apply cumulativeCashFlow_step.
Qed.


(** X22.  The first year of the schedule and the headline figures: the rent
    of year 1 less its operating expenses is the net operating income of the
    result set, to the last bit; its cash flow is that less 12 monthly
    payments, while the annual cash flow of the result set is 12 times the
    monthly cash flow, the same number computed in another order. *)
Theorem first_year_net_operating_income (inputs : Inputs num) :
  let r := calculateResults inputs in
  exists row,
    nth_error (cashFlowSchedule r) 0 = Some row /\
    year row = 1%Z /\
    rentalIncome row - operatingExpenses row = netOperatingIncome r /\
    cashFlow row = netOperatingIncome r - monthlyPayment r * lit 12 /\
    annualCashFlow r =
      (monthlyRentAfterVacancy r - (monthlyExpenses r + monthlyPayment r))
      * lit 12.
Proof.
  intros r. subst r. rewrite cashFlowSchedule_rows.
  assert (Hk : nth_error projection_years 0 = Some 1%Z)
    by (apply (@projection_years_nth 0); lia).
  eexists. split; [exact (rows_nth _ _ _ _ _ _ Hk)|].
  cbn [year rentalIncome operatingExpenses cashFlow].
  repeat split.
Qed.

End ChartFacts.

(** ** The form at run time *)

Section FormFacts.

Context {num : Type} {N : Numeric num}.
Variable Number_ : string -> num.
Local Open Scope num_scope.

Local Abbreviation handle := (Form.handleInputChange Number_).
Local Abbreviation calculate := (Form.calculateResults Number_).
Local Abbreviation effect := (Form.useEffect Number_).

Lemma in_all_keys (k : Key.t) : In k all_keys.
Proof. destruct k; simpl; tauto. Qed.

Lemma field_set (s : Form.state num) (name k : Key.t) (e : Form.entry num) :
  Form.field (Form.set name e s) k =
  if Key.eqb k name then e else Form.field s k.
Proof. reflexivity. Qed.

Lemma some_empty_field (s : Form.state num) (k : Key.t) :
  Form.is_empty (Form.field s k) = true -> Form.some_empty s = true.
Proof.
  intros H. unfold Form.some_empty. apply orb_true_iff. left.
  apply existsb_exists. exists k. split; [apply in_all_keys | exact H].
Qed.

(** The result set depends on the contents of the state only. *)
Lemma calculate_same_form (s t : Form.state num) :
  same_form s t -> calculate s = calculate t.
Proof.
  intros [Hf [Ht _]]. unfold Form.calculateResults.
  now rewrite Ht, !Hf.
Qed.

Lemma some_empty_same_form (s t : Form.state num) :
  same_form s t -> Form.some_empty s = Form.some_empty t.
Proof.
  intros [Hf [_ Hp]]. unfold Form.some_empty. rewrite Hp. f_equal.
  induction all_keys as [|k l IH]; [reflexivity|].
  simpl. now rewrite Hf, IH.
Qed.

(** X6.  Emptying a field stores the empty string, and the results are not
    recalculated while it is there.  Leaving the field then puts 0 in it, so
    that emptying and leaving a field is the same as typing 0; leaving a
    field that is not empty changes nothing. *)
Theorem emptied_field_waits_for_blur (s : Form.state num) (name : Key.t) :
  let emptied := handle s (Form.Typed name "") in
  Form.field emptied name = Form.Str "" /\
  (forall results, effect emptied results = results) /\
  same_form (Form.handleBlur emptied name)
            (Form.set name (Form.Num (lit 0)) s) /\
  (forall k, Form.is_empty (Form.field s k) = false ->
             Form.handleBlur s k = s).
Proof.
  intros emptied. subst emptied. cbn [Form.handleInputChange String.eqb].
  assert (Hfield : Form.field (Form.set name (Form.Str "") s) name = Form.Str "").
  { rewrite field_set. now rewrite Key_eqb_refl. }
  split; [exact Hfield|]. split; [|split].
  - intros results. unfold Form.useEffect.
    rewrite (some_empty_field _ name); [reflexivity|].
    now rewrite Hfield.
  - unfold Form.handleBlur. rewrite Hfield. cbn [Form.is_empty String.eqb].
    split; [|split; reflexivity].
    intros k. rewrite !field_set. now destruct (Key.eqb k name).
  - intros k Hk. unfold Form.handleBlur. now rewrite Hk.
Qed.

(** X7.  Text typed into a field that holds a string is stored as a string, for
    every field but the down payment: once emptied, such a field does not
    hold a number again until it is emptied and left.  The calculation reads
    a guarded field that holds a string as 0, whatever the text. *)
Theorem typed_text_in_emptied_field_reads_as_zero
    (s : Form.state num) (name : Key.t) (old text : string) :
  Form.field s name = Form.Str old ->
  name <> Key.downPayment ->
  let typed := handle s (Form.Typed name text) in
  Form.field typed name = Form.Str text /\
  (guarded name = true ->
   calculate typed = calculate (Form.set name (Form.Num (lit 0)) typed)).
Proof.
  intros Hold Hname typed.
  assert (Hfield : Form.field typed name = Form.Str text).
  { subst typed. unfold Form.handleInputChange.
    destruct (String.eqb_spec text "") as [->|_].
    - rewrite field_set. now rewrite Key_eqb_refl.
    - rewrite Hold.
      destruct name; try (now contradiction Hname);
        try reflexivity; now destruct (Form.downPaymentType s). }
  split; [exact Hfield|].
  intros Hg. clearbody typed.
  unfold Form.calculateResults. cbn [Form.downPaymentType Form.set].
  destruct name; try discriminate Hg; cbn [Form.field Form.set Key.eqb];
    rewrite ?Hfield; reflexivity.
Qed.

(** X8.  A down payment that is typed is always stored as a number, also when
    the field held a string. *)
Theorem typed_down_payment_is_a_number
    (s : Form.state num) (text : string) :
  text <> ""%string ->
  exists x : num,
    Form.field (handle s (Form.Typed Key.downPayment text)) Key.downPayment
    = Form.Num x.
Proof.
  intros Htext. unfold Form.handleInputChange.
  destruct (String.eqb_spec text "") as [E|_]; [contradiction|].
  destruct (Form.downPaymentType s); eexists; reflexivity.
Qed.

(** X9.  On a state that holds numbers only, the calculation is the one on the
    numbers, and so is what the effect stores (no field is empty, the
    property type apart). *)
Theorem calculation_on_numbers (inputs : Inputs num) :
  calculate (form_of_inputs inputs) = calculateResults inputs /\
  (propertyType inputs <> Some ""%string ->
   forall results,
     effect (form_of_inputs inputs) results = calculateResults inputs).
Proof.
  assert (H : calculate (form_of_inputs inputs) = calculateResults inputs)
    by reflexivity.
  split; [exact H|].
  intros Hp results. unfold Form.useEffect.
  assert (Hs : Form.some_empty (form_of_inputs inputs) = false).
  { unfold Form.some_empty. cbn [form_of_inputs Form.field Form.propertyType].
    apply orb_false_iff. split; [reflexivity|].
    destruct (propertyType inputs) as [p|]; [|reflexivity].
    destruct (String.eqb_spec p ""); [subst; now contradiction Hp|reflexivity]. }
  now rewrite Hs.
Qed.

(** X10.  On a state that holds numbers only, an event that is not the emptying
    of a field leads to a state that holds numbers only, the one that the
    handler on numbers computes. *)
Theorem handler_on_numbers (inputs : Inputs num) (e : Form.event) :
  (forall name, e <> Form.Typed name "") ->
  same_form (handle (form_of_inputs inputs) e)
            (form_of_inputs (handleInputChange inputs (change_of_event Number_ e))).
Proof.
  intros He. destruct e as [name text|value|value].
  - unfold Form.handleInputChange.
    destruct (String.eqb_spec text "") as [->|_]; [now contradiction (He name)|].
    cbn [form_of_inputs Form.field change_of_event].
    unfold handleInputChange.
    destruct name.
    all: cbn [Form.downPaymentType form_of_inputs].
    all: destruct (downPaymentType inputs) eqn:Et.
    all: split; [intros k|split; cbn; try rewrite Et; reflexivity].
    all: cbn [Form.field Form.set form_of_inputs Form.number_or_0
              Form.to_number get].
    all: rewrite ?get_set_number.
    all: destruct k; reflexivity.
  - unfold Form.handleInputChange, handleInputChange. cbn [change_of_event].
    destruct value; (split; [intros k|split; reflexivity]);
      cbn [Form.field Form.set form_of_inputs Form.number_or_0 get];
      rewrite ?get_set_number; destruct k; reflexivity.
  - split; [intros k|split; reflexivity]. now destruct k.
Qed.

(** X11.  The calculation on any state is the engine on the numbers read with
    [typeof x === 'number' ? x : 0], as long as the interest rate, the
    amortization period and the annual rent increase hold numbers (these
    three are passed on unguarded); reading a state that holds numbers only
    gives the numbers back. *)
Theorem calculation_reads_text_as_zero (s : Form.state num) :
  (forall k, guarded k = false -> exists x, Form.field s k = Form.Num x) ->
  calculate s = calculateResults (inputs_of_form s) /\
  (forall results,
      effect s results =
      if Form.some_empty s then results
      else calculateResults (inputs_of_form s)) /\
  (forall inputs, s = form_of_inputs inputs -> inputs_of_form s = inputs).
Proof.
  intros Hnum.
  destruct (Hnum Key.interestRate eq_refl) as [i Hi].
  destruct (Hnum Key.amortizationPeriod eq_refl) as [a Ha].
  destruct (Hnum Key.annualRentIncrease eq_refl) as [g Hg].
  assert (H : calculate s = calculateResults (inputs_of_form s)).
  { unfold Form.calculateResults, Form.generateCashFlowSchedule.
    rewrite Hi, Ha, Hg.
    unfold calculateResults, generateCashFlowSchedule, mortgage_payment,
      inputs_of_form.
    cbn [interestRate amortizationPeriod annualRentIncrease].
    rewrite Hi, Ha, Hg. reflexivity. }
  split; [exact H|]. split.
  - intros results. unfold Form.useEffect. now rewrite H.
  - intros inputs ->. now destruct inputs.
Qed.

(** X12.  The mortgage term is not read: whatever the field holds, the result set
    is the same.  Yet emptying the field suspends the calculation like any
    other field does. *)
Theorem term_is_not_read (s : Form.state num) :
  (forall e, calculate (Form.set Key.term e s) = calculate s) /\
  (forall inputs v,
      calculateResults (set_number Key.term v inputs) = calculateResults inputs) /\
  (forall results,
      effect (Form.set Key.term (Form.Str "") s) results = results).
Proof.
  split; [|split].
  - intros e. reflexivity.
  - intros inputs v. reflexivity.
  - intros results. unfold Form.useEffect.
    rewrite (some_empty_field _ Key.term); reflexivity.
Qed.

End FormFacts.

(** ** The text of a number field *)

Lemma ascii_48 (c : Ascii.ascii) :
  (Ascii.nat_of_ascii c =? 48)%nat = true -> c = Ascii.ascii_of_nat 48.
Proof.
  intros H. apply Nat.eqb_eq in H.
  rewrite <- (Ascii.ascii_nat_embedding c). now rewrite H.
Qed.

(** X13.  Removing the leading zeros removes zeros from the front and nothing
    else, leaves no zero in front of a digit, and so changes nothing when
    applied again; a text that does not start with a zero followed by a digit
    is left as it is. *)
Theorem strip_leading_zeros_spec (s : string) :
  (exists n, s = (zeros n ++ Form.strip_leading_zeros s)%string) /\
  zero_then_digit (Form.strip_leading_zeros s) = false /\
  Form.strip_leading_zeros (Form.strip_leading_zeros s)
  = Form.strip_leading_zeros s /\
  (zero_then_digit s = false -> Form.strip_leading_zeros s = s).
Proof.
  assert (Hfix : forall t, zero_then_digit t = false ->
                           Form.strip_leading_zeros t = t).
  { intros [|c [|d t]] H; simpl in *; try reflexivity.
    - now destruct (Ascii.nat_of_ascii c =? 48)%nat.
    - destruct (Ascii.nat_of_ascii c =? 48)%nat; [|reflexivity].
      simpl in H. now rewrite H. }
  assert (Hclean : forall t, zero_then_digit (Form.strip_leading_zeros t) = false).
  { induction t as [|c t IH]; [reflexivity|].
    cbn [Form.strip_leading_zeros].
    destruct (Ascii.nat_of_ascii c =? 48)%nat eqn:Ec.
    - destruct t as [|d t]; [reflexivity|].
      destruct (Form.is_digit d) eqn:Ed; [exact IH|].
      cbn [zero_then_digit]. now rewrite Ec, Ed.
    - destruct t as [|d t]; [reflexivity|].
      cbn [zero_then_digit]. now rewrite Ec. }
  split; [|split; [apply Hclean|split; [apply Hfix, Hclean|apply Hfix]]].
  induction s as [|c s IH].
  - now exists 0%nat.
  - cbn [Form.strip_leading_zeros].
    destruct (Ascii.nat_of_ascii c =? 48)%nat eqn:Ec; [|now exists 0%nat].
    destruct s as [|d s]; [now exists 0%nat|].
    destruct (Form.is_digit d); [|now exists 0%nat].
    destruct IH as [n Hn]. exists (S n). cbn [zeros String.append].
    rewrite <- Hn. now rewrite (ascii_48 c Ec).
Qed.

Example strip_leading_zeros_examples :
  Form.strip_leading_zeros "0012" = "12"%string /\
  Form.strip_leading_zeros "000" = "0"%string /\
  Form.strip_leading_zeros "00.5" = "0.5"%string /\
  Form.strip_leading_zeros "0.5" = "0.5"%string /\
  Form.strip_leading_zeros "-05" = "-05"%string.
Proof. repeat split. Qed.

(** ** The handler and the page in exact arithmetic *)

Section WholeNumbers.

Local Open Scope Qc_scope.

Lemma Zc_mult (m n : Z) : Zc m * Zc n = Zc (m * n).
Proof.
  apply Qc_is_canon. unfold Qcmult, Q2Qc. cbn [this].
  rewrite !Qred_correct. now rewrite inject_Z_mult.
Qed.

Lemma Zc_le (m n : Z) : (m <= n)%Z -> Zc m <= Zc n.
Proof.
  intros H. unfold Qcle, Q2Qc. cbn [this]. rewrite !Qred_correct.
  now rewrite <- Zle_Qle.
Qed.

(** The rounding of a rational between two whole numbers lies between
    them. *)
Lemma Qcround_between (q : Qc) (lo hi : Z) :
  Zc lo <= q -> q <= Zc hi ->
  exists n : Z, X.Qcround q = Zc n /\ (lo <= n <= hi)%Z.
Proof.
  intros Hlo Hhi. unfold X.Qcround. eexists. split; [reflexivity|].
  unfold Qcle, Q2Qc in Hlo, Hhi. cbn [this] in Hlo, Hhi.
  rewrite Qred_correct in Hlo, Hhi.
  split.
  - rewrite <- (Qfloor_Z lo). apply Qfloor_resp_le. lra.
  - assert (H : (Qfloor (q + (1 # 2)) < hi + 1)%Z).
    { rewrite Zlt_Qlt. apply Qle_lt_trans with (q + (1 # 2))%Q.
      - apply Qfloor_le.
      - rewrite inject_Z_plus. change (inject_Z 1) with 1%Q. lra. }
    lia.
Qed.

(** Rounding does not go below a whole number that the rational is not
    below. *)
Lemma Qcround_ge (q : Qc) (lo : Z) : Zc lo <= q -> Zc lo <= X.Qcround q.
Proof.
  intros Hlo. unfold X.Qcround. apply Zc_le.
  unfold Qcle, Q2Qc in Hlo. cbn [this] in Hlo. rewrite Qred_correct in Hlo.
  rewrite <- (Qfloor_Z lo). apply Qfloor_resp_le. lra.
Qed.

(** A rational strictly within a half of a whole number rounds to it. *)
Lemma Qcround_near (q : Qc) (k : Z) :
  Zc k - Q2Qc (1 # 2) <= q -> q < Zc k + Q2Qc (1 # 2) -> X.Qcround q = Zc k.
Proof.
  intros Hlo Hhi. unfold X.Qcround. f_equal. f_equal.
  unfold Qcle, Qclt, Qcminus, Qcplus, Qcopp, Q2Qc in Hlo, Hhi.
  cbn [this] in Hlo, Hhi.
  change (Qred (1 # 2)) with (1 # 2)%Q in Hlo, Hhi.
  rewrite !Qred_correct in Hlo, Hhi.
  change (Qred (- (1 # 2))) with (- (1 # 2))%Q in Hlo.
  assert (H1 : (k <= Qfloor (q + (1 # 2)))%Z).
  { rewrite <- (Qfloor_Z k). apply Qfloor_resp_le. lra. }
  assert (H2 : (Qfloor (q + (1 # 2)) < k + 1)%Z).
  { rewrite Zlt_Qlt. apply Qle_lt_trans with (q + (1 # 2))%Q.
    - apply Qfloor_le.
    - rewrite inject_Z_plus. change (inject_Z 1) with 1%Q. lra. }
  lia.
Qed.

Lemma percentage_in_range (p d : Qc) :
  0 < p -> 0 <= d -> d <= p ->
  Zc 0 <= d / p * Zc 100 /\ d / p * Zc 100 <= Zc 100.
Proof.
  intros Hp Hd Hdp. qc_to_q.
  assert (H0 : (0 <= d / p)%Q) by (apply Qle_shift_div_l; [exact Hp | lra]).
  assert (H1 : (d / p <= 1)%Q) by (apply Qle_shift_div_r; [exact Hp | lra]).
  unfold Qdiv in H0, H1. split; lra.
Qed.

Lemma whole_percent_back_Q (p k r u : Q) :
  (10000 < p)%Q ->
  (u * p == r * 100)%Q ->
  (p * (k * (1 # 100)) * (1 # 100) - (1 # 2) <= r)%Q ->
  (r <= p * (k * (1 # 100)) * (1 # 100) + (1 # 2))%Q ->
  (k - (1 # 2) <= u * 100)%Q /\ (u * 100 < k + (1 # 2))%Q.
Proof.
  intros Hp Hu Hlo Hhi.
  assert (Hd : (p * (u * 100 - k) == 10000 * (r - p * (k * (1 # 100)) * (1 # 100)))%Q).
  { setoid_replace (p * (u * 100 - k))%Q with (100 * (u * p) - p * k)%Q by ring.
    rewrite Hu. ring. }
  split.
  - destruct (Qlt_le_dec (u * 100) (k - (1 # 2))) as [C|C]; [|exact C].
    exfalso.
    assert (H : (p * (u * 100 - k) <= p * -(1 # 2))%Q).
    { apply Qmult_le_l; lra. }
    lra.
  - destruct (Qlt_le_dec (u * 100) (k + (1 # 2))) as [C|C]; [exact C|].
    exfalso.
    assert (H : (p * (1 # 2) <= p * (u * 100 - k))%Q).
    { apply Qmult_le_l; lra. }
    lra.
Qed.

Lemma whole_percent_back_Qc (p : Qc) (k : Z) :
  Zc 10000 < p ->
  let there := X.Qcround (p * (Zc k / Zc 100) / Zc 100) * Zc 100 in
  X.Qcround (there / p * Zc 100) = Zc k.
Proof.
  intros Hp there. subst there.
  pose proof (Qcround_bounds (p * (Zc k / Zc 100) / Zc 100)) as [Hlo Hhi].
  set (r := X.Qcround (p * (Zc k / Zc 100) / Zc 100)) in *. clearbody r.
  assert (Hnz : p <> 0).
  { apply Qclt_nonzero. apply Qclt_trans with (Zc 10000); [|exact Hp].
    now lazy. }
  assert (Hu : ((r * Zc 100 / p)%Qc * p == (r * Zc 100)%Qc)%Q).
  { assert (E : r * Zc 100 / p * p = r * Zc 100) by (field; exact Hnz).
    pose proof (Qred_correct ((r * Zc 100 / p)%Qc * p)%Q) as R.
    change (Qred ((r * Zc 100 / p)%Qc * p)%Q) with (this (r * Zc 100 / p * p)) in R.
    rewrite E in R. now symmetry. }
  set (u := r * Zc 100 / p) in *. clearbody u.
  apply Qcround_near.
  - revert Hp Hu Hlo Hhi. generalize (Zc k). intros kq Hp Hu Hlo Hhi.
    qc_to_q. apply (@whole_percent_back_Q p kq r u); auto; lra.
  - revert Hp Hu Hlo Hhi. generalize (Zc k). intros kq Hp Hu Hlo Hhi.
    qc_to_q. apply (@whole_percent_back_Q p kq r u); auto; lra.
Qed.

End WholeNumbers.

Ltac not_zero :=
  first [ assumption
        | apply lit_nonzero; lia
        | apply Qclt_nonzero; assumption ].

(** Pushes the operations of the engine through finite values. *)
Ltac push_fin :=
  rewrite ?x_lit;
  repeat first
    [ rewrite x_mul_fin | rewrite x_add_fin | rewrite x_sub_fin
    | rewrite x_max_fin' | rewrite x_round_fin
    | rewrite x_div_fin' by not_zero ].

Section ExactFacts.

Variable pow : xnum -> xnum -> xnum.
Let exact : Numeric xnum := X.numeric pow.
Local Existing Instance exact.
Local Open Scope Qc_scope.

Lemma x_gtb_fin (p q : Qc) : (Fin p >? Fin q)%num = true <-> q < p.
Proof. apply x_ltb_fin. Qed.

Lemma x_ltb_fin_false (p q : Qc) : X.ltb (Fin p) (Fin q) = false <-> q <= p.
Proof.
  unfold X.ltb. rewrite Qcle_alt.
  destruct (p ?= q) eqn:E.
  - apply Qceq_alt in E. subst q.
    assert (H : (p ?= p) = Eq) by now apply Qceq_alt.
    rewrite H. split; congruence.
  - assert (H : (q ?= p) = Gt) by (rewrite <- Qcgt_alt; now apply Qclt_alt).
    rewrite H. split; congruence.
  - assert (H : (q ?= p) = Lt) by (rewrite <- Qclt_alt; now apply Qcgt_alt).
    rewrite H. split; congruence.
Qed.

(** X14.  Switching to percent stores a whole percentage, between 0 and 100 when
    the amount is between 0 and the (positive) price. *)
Theorem switch_to_percent_gives_whole_percentage
    (inputs : Inputs xnum) (p d : Qc) :
  purchasePrice inputs = Fin p ->
  downPayment inputs = Fin d ->
  0 < p -> 0 <= d -> d <= p ->
  exists n : Z,
    downPayment (handleInputChange inputs (SetDownPaymentType percent))
    = Fin (Zc n) /\ (0 <= n <= 100)%Z.
Proof.
  intros Hp Hd Hpos Hd0 Hdp. unfold exact in *.
  destruct (switch_to_percent pow inputs Hp Hd (Qclt_nonzero Hpos))
    as [_ [_ H]].
  rewrite H.
  destruct (percentage_in_range Hpos Hd0 Hdp) as [Hlo Hhi].
  destruct (Qcround_between Hlo Hhi) as [n [Hn Hrange]].
  exists n. now rewrite Hn.
Qed.

(** X16.  A whole percentage between 0 and 100 survives the switch to amount
    and back when the price is between 20000 and 10^15: the hundred that the
    amount is rounded to is then about a quarter of a percentage point at
    most. *)
Theorem percent_round_trip (inputs : Inputs xnum) (p : Qc) (k : Z) :
  purchasePrice inputs = Fin p ->
  downPayment inputs = Fin (Zc k) ->
  Zc 20000 <= p ->
  p <= Zc 1000000000000000 ->
  (0 <= k <= 100)%Z ->
  let there := handleInputChange inputs (SetDownPaymentType amount) in
  let back := handleInputChange there (SetDownPaymentType percent) in
  downPaymentType back = percent /\
  purchasePrice back = Fin p /\
  downPayment back = Fin (Zc k).
Proof.
  intros Hp Hd Hlow _ _ there back. unfold exact in *.
  assert (Hbig : Zc 10000 < p).
  { apply Qclt_le_trans with (Zc 20000); [now lazy | exact Hlow]. }
  assert (Hpos : 0 < p).
  { apply Qclt_trans with (Zc 10000); [now lazy | exact Hbig]. }
  destruct (switch_to_amount pow inputs Hp Hd) as [Hp1 [_ Hd1]].
  fold there in Hp1, Hd1.
  destruct (switch_to_percent pow there Hp1 Hd1 (Qclt_nonzero Hpos))
    as [Hp2 [Ht2 Hd2]].
  fold back in Hp2, Ht2, Hd2.
  split; [exact Ht2|]. split; [exact Hp2|].
  rewrite Hd2. f_equal. now apply whole_percent_back_Qc.
Qed.

Lemma amount_for_percentage_Qc (v pct R S : Qc) :
  0 < v ->
  Zc 200 <= v * pct / Zc 100 ->
  v * (pct / Zc 100) / Zc 100 - Q2Qc (1 # 2) <= R ->
  v * (R * Zc 100) / Zc 100 <= S ->
  v - S < 0.
Proof.
  intros Hv Hbig HR HS. qc_to_q.
  assert (H : (0 <= v * (R - (3 # 2)))%Q)
    by (apply Qmult_le_0_compat; lra).
  nra.
Qed.

Lemma hundreds_at_least_200 (R : Qc) : Zc 2 <= R -> Zc 200 <= R * Zc 100.
Proof.
  intros H. qc_to_q. lra.
Qed.

Lemma two_hundredths (v pct : Qc) :
  Zc 200 <= v * pct / Zc 100 -> Zc 2 <= v * (pct / Zc 100) / Zc 100.
Proof.
  intros H. qc_to_q. lra.
Qed.

(** X17.  In percent mode a change of the price replaces the percentage in the
    down-payment field by the amount it stands for at the new price, to the
    nearest hundred, and leaves the field in percent mode.  The calculation
    then reads that amount as a percentage: with a positive price at which
    the percentage stands for 200 or more, the field holds 200 or more and
    the mortgage amount comes out negative. *)
Theorem price_change_in_percent_mode (inputs : Inputs xnum) (pct v : Qc) :
  downPaymentType inputs = percent ->
  downPayment inputs = Fin pct ->
  let after := handleInputChange inputs (SetNumber Key.purchasePrice (Fin v)) in
  downPaymentType after = percent /\
  purchasePrice after = Fin v /\
  downPayment after =
    (Math_round (Fin v * (Fin pct / lit 100) / lit 100) * lit 100)%num /\
  (0 < v -> Zc 200 <= v * pct / Zc 100 ->
   X.leb (lit 200) (downPayment after) = true /\
   X.ltb (mortgageAmount (calculateResults after)) (lit 0) = true).
Proof.
  intros Ht Hd after. unfold exact in *.
  assert (Hta : downPaymentType after = percent).
  { subst after. unfold handleInputChange. now rewrite Ht. }
  assert (Hpa : purchasePrice after = Fin v).
  { subst after. unfold handleInputChange. now rewrite Ht. }
  assert (Hraw : downPayment after =
                 (Math_round (Fin v * (Fin pct / lit 100) / lit 100) * lit 100)%num).
  { subst after. unfold handleInputChange. rewrite Ht.
    cbn [downPayment set_number Key.eqb]. rewrite Hd. reflexivity. }
  assert (Hda : downPayment after =
                Fin (X.Qcround (v * (pct / Zc 100) / Zc 100) * Zc 100)).
  { rewrite Hraw. now push_fin. }
  pose proof (Qcround_bounds (v * (pct / Zc 100) / Zc 100)) as [Hlo Hhi].
  set (R := X.Qcround (v * (pct / Zc 100) / Zc 100)) in *.
  split; [exact Hta|]. split; [exact Hpa|]. split; [exact Hraw|].
  intros Hv Hbig. split.
  - rewrite Hda, x_lit. apply x_leb_fin.
    apply hundreds_at_least_200.
    apply Qcround_ge. now apply two_hundredths.
  - destruct (actualDownPayment_fin pow after Hpa Hda) as [_ Ha].
    rewrite Hta in Ha.
    change (mortgageAmount (calculateResults after))
      with (purchasePrice after - actualDownPayment after)%num.
    unfold exact.
    rewrite Hpa, Ha. push_fin. apply x_ltb_fin.
    apply amount_for_percentage_Qc with (pct := pct) (R := R);
      [exact Hv | exact Hbig | exact Hlo | apply Qcmax_ge_l].
Qed.

Lemma x_clamp_fin (v p : Qc) :
  exists d : Qc,
    (if (Fin v >? Fin p)%num then Fin p else Fin v) = Fin d /\ d <= p.
Proof.
  destruct (Fin v >? Fin p)%num eqn:E.
  - exists p. split; [reflexivity | apply Qcle_refl].
  - exists v. split; [reflexivity|]. now apply x_ltb_fin_false.
Qed.

(** X18.  In amount mode, whatever amount is typed, the calculation that follows
    gives a mortgage amount between 0 and 80% of the (positive) price. *)
Theorem typed_amount_gives_sound_mortgage (inputs : Inputs xnum) (p v : Qc) :
  downPaymentType inputs = amount ->
  purchasePrice inputs = Fin p ->
  0 < p ->
  let after := handleInputChange inputs (SetNumber Key.downPayment (Fin v)) in
  let r := calculateResults after in
  X.leb (lit 0) (mortgageAmount r) = true /\
  X.leb (mortgageAmount r) (Fin (Q2Qc (80 # 100)) * Fin p)%num = true.
Proof.
  intros Ht Hp Hpos after r. unfold exact in *.
  assert (Hta : downPaymentType after = amount).
  { subst after. unfold handleInputChange. now rewrite Ht. }
  assert (Hpa : purchasePrice after = Fin p).
  { subst after. unfold handleInputChange. now rewrite Ht. }
  destruct (x_clamp_fin v p) as [d [Hd Hdp]].
  assert (Hda : downPayment after = Fin d).
  { subst after. unfold handleInputChange. rewrite Ht.
    cbn [downPayment set_number Key.eqb]. rewrite Hp. exact Hd. }
  destruct (actualDownPayment_fin pow after Hpa Hda) as [_ Ha].
  rewrite Hta in Ha. subst r.
  change (mortgageAmount (calculateResults after))
    with (purchasePrice after - actualDownPayment after)%num.
  unfold exact. rewrite Hpa, Ha. push_fin. split; apply x_leb_fin.
  - apply loan_nonnegative, Qcmax_lub; [exact Hdp|].
    now apply floor_at_most_price.
  - apply loan_at_most_80, Qcmax_ge_r.
Qed.

(** X19.  The warning "Investment properties typically require at least 20%
    down payment" is tied to the percentage after the floor of 20%: for a
    price of at least 1 it is never shown, however small the down payment
    that is entered. *)
Theorem down_payment_warning_never_shown (inputs : Inputs xnum) (p d : Qc) :
  purchasePrice inputs = Fin p ->
  downPayment inputs = Fin d ->
  Zc 1 <= p ->
  showsDownPaymentWarning (calculateResults inputs) = false.
Proof.
  intros Hp Hd Hone. unfold exact in *.
  assert (Hpos : 0 < p) by (now apply Qclt_le_trans with (Zc 1)).
  destruct (actualDownPayment_fin pow inputs Hp Hd) as [_ Ha].
  unfold showsDownPaymentWarning, lt.
  change (downPaymentPercent (calculateResults inputs))
    with (actualDownPayment inputs / purchasePrice inputs * lit 100)%num.
  unfold exact.
  rewrite Ha, Hp.
  push_fin. apply x_ltb_fin_false.
  apply percent_at_least_20; [exact Hpos | apply Qcmax_ge_r].
Qed.

End ExactFacts.

(** ** The result set as a whole *)

Section Headline.

Variable pow : xnum -> xnum -> xnum.
Let exact : Numeric xnum := X.numeric pow.
Local Existing Instance exact.
Local Open Scope Qc_scope.

Lemma finite_results_false_payment (r : Results xnum) :
  X.is_finite (monthlyPayment r) = false -> finite_results r = false.
Proof.
  intros H. unfold finite_results. rewrite H.
  now rewrite ?andb_false_r, ?andb_false_l.
Qed.

(** X23.  With an amortization period of 0 the payment divides by 0 in either
    branch of the formula: the monthly payment is not a finite number, and
    neither is the result set.  ([Math.pow] is taken to give 1 for the
    exponent 0.) *)
Theorem no_amortization_period_no_payment (inputs : Inputs xnum) (i : Qc) :
  interestRate inputs = Fin i ->
  amortizationPeriod inputs = Fin 0 ->
  pow (Fin (1 + i / Zc 100 / Zc 12)) (Fin 0) = Fin 1 ->
  X.is_finite (monthlyPayment (calculateResults inputs)) = false /\
  finite_results (calculateResults inputs) = false.
Proof.
  intros Hi Hy Hpow. unfold exact in *.
  assert (H : X.is_finite (monthlyPayment (calculateResults inputs)) = false).
  { change (monthlyPayment (calculateResults inputs))
      with (mortgage_payment (mortgageAmount (calculateResults inputs))
                             (interestRate inputs) (amortizationPeriod inputs)).
    unfold exact. rewrite Hi, Hy. unfold mortgage_payment. cbv zeta.
    rewrite x_zero_times.
    destruct (Fin i === lit 0)%num.
    - apply x_div_zero_not_finite.
    - rewrite !x_lit, !x_div_fin' by (apply lit_nonzero; lia).
      rewrite x_add_fin.
      change (Zc 1 + i / Zc 100 / Zc 12) with (1 + i / Zc 100 / Zc 12).
      change (@Math_pow xnum (X.numeric pow)) with pow. rewrite Hpow.
      assert (E : (Fin 1 - Fin (Zc 1))%num = Fin 0).
      { unfold exact. rewrite x_sub_fin. apply f_equal, Qc_is_canon. reflexivity. }
      unfold exact in E. rewrite E. apply x_div_zero_not_finite. }
  unfold exact in *.
  split; [exact H | now apply finite_results_false_payment].
Qed.

End Headline.

(** ** Text in the interest-rate field *)

Section TextRate.

Variable pow : xnum -> xnum -> xnum.
Let exact : Numeric xnum := X.numeric pow.
Local Existing Instance exact.
Variable Number_ : string -> xnum.
Local Open Scope Qc_scope.

Lemma rate_of_zero : Zc 1 + 0 / Zc 100 / Zc 12 = 1.
Proof. apply Qc_is_canon. reflexivity. Qed.

(** X24.  Emptying the interest-rate field and typing a text that reads as 0 puts
    that text in the state, and the results are calculated again when no
    other field is empty.  The test [annualInterestRate === 0] then fails on
    the text, so that the general formula runs with a rate of 0 and divides
    by [Math.pow(1, n) - 1]: the monthly payment is not a finite number.
    ([Math.pow] is taken to give 1 for the base 1.) *)
Theorem zero_typed_into_emptied_rate_field
    (s : Form.state xnum) (text : string) :
  text <> ""%string ->
  Number_ text = Fin 0 ->
  pow (Fin 1)
      (Form.to_number Number_ (Form.field s Key.amortizationPeriod) * lit 12)%num
  = Fin 1 ->
  let emptied := Form.handleInputChange Number_ s (Form.Typed Key.interestRate "") in
  let typed :=
    Form.handleInputChange Number_ emptied (Form.Typed Key.interestRate text) in
  Form.field typed Key.interestRate = Form.Str text /\
  (forall k, Form.is_empty (Form.field typed k) = true ->
             Form.is_empty (Form.field s k) = true) /\
  X.is_finite (monthlyPayment (Form.calculateResults Number_ typed)) = false.
Proof.
  intros Htext Hzero Hpow emptied typed.
  assert (Hfield : forall k,
             Form.field typed k =
             if Key.eqb k Key.interestRate then Form.Str text
             else Form.field s k).
  { intros k. subst typed emptied. unfold Form.handleInputChange.
    cbn [String.eqb].
    destruct (String.eqb_spec text "") as [E|_]; [contradiction|].
    cbn [Form.set Form.field Key.eqb].
    now destruct (Key.eqb k Key.interestRate). }
  assert (Hempty : Form.is_empty (Form.Str (num := xnum) text) = false).
  { cbn [Form.is_empty]. now destruct (String.eqb_spec text ""). }
  split; [exact (Hfield Key.interestRate)|]. split.
  - intros k. rewrite Hfield.
    destruct (Key.eqb k Key.interestRate); [|trivial].
    rewrite Hempty. discriminate.
  - clearbody typed. clear emptied.
    unfold Form.calculateResults. cbn [monthlyPayment].
    unfold Form.generateCashFlowSchedule. cbn [snd].
    rewrite (Hfield Key.interestRate), (Hfield Key.amortizationPeriod).
    cbn [Key.eqb Form.is_zero Form.to_number].
    rewrite Hzero. unfold exact.
    rewrite !x_lit, !x_div_fin' by (apply lit_nonzero; lia).
    rewrite x_add_fin, rate_of_zero.
    change (@Math_pow xnum (X.numeric pow)) with pow.
    change (Fin (Zc 12)) with (@lit xnum (X.numeric pow) 12).
    unfold exact in Hpow. rewrite Hpow.
    assert (E : (Fin 1 - Fin (Zc 1))%num = Fin 0).
    { unfold exact. rewrite x_sub_fin. apply f_equal, Qc_is_canon. reflexivity. }
    unfold exact in E. rewrite E. apply x_div_zero_not_finite.
Qed.

End TextRate.

(** ** The figures and notes of the page *)

Section Page.

Variable pow : xnum -> xnum -> xnum.
Local Hint Extern 0 (Numeric xnum) =>
  exact (X.numeric pow) : typeclass_instances.
Local Open Scope Qc_scope.

Lemma Qccompare_swap (p q : Qc) : (q ?= p) = CompOpp (p ?= q).
Proof. unfold Qccompare. symmetry. apply Qcompare_antisym. Qed.

Lemma x_lt_fin (p q : Qc) : lt (Fin p) (Fin q) = true <-> p < q.
Proof. apply x_ltb_fin. Qed.

Lemma x_lt_fin_false (p q : Qc) : lt (Fin p) (Fin q) = false <-> q <= p.
Proof. apply x_ltb_fin_false. Qed.

Lemma x_ge_fin (p q : Qc) : ge (Fin p) (Fin q) = true <-> q <= p.
Proof.
  unfold ge. change ((Fin p >? Fin q)%num) with (X.ltb (Fin q) (Fin p)).
  change ((Fin p === Fin q)%num) with (X.eqb (Fin p) (Fin q)).
  unfold X.ltb, X.eqb. rewrite (Qccompare_swap q p), Qcle_alt.
  destruct (q ?= p); simpl; split; intros H; try reflexivity;
    try discriminate; try (intros E; discriminate E); now contradiction H.
Qed.

Lemma x_ge_fin_false (p q : Qc) : ge (Fin p) (Fin q) = false <-> p < q.
Proof.
  split.
  - intros H. apply Qcnot_le_lt. intros Hle.
    apply x_ge_fin in Hle. congruence.
  - intros H. destruct (ge (Fin p) (Fin q)) eqn:E; [|reflexivity].
    apply x_ge_fin in E. now apply Qcle_not_lt in E.
Qed.

(** The sentence for a return that is a number. *)
Lemma investmentSummary_fin (results : Results xnum) (q : Qc) :
  cashOnCash results = Fin q ->
  (Zc 8 <= q -> investmentSummary results = StrongPotential) /\
  (Zc 5 <= q -> q < Zc 8 -> investmentSummary results = DecentPotential) /\
  (Zc 0 <= q -> q < Zc 5 -> investmentSummary results = BelowAverageReturns) /\
  (q < Zc 0 -> investmentSummary results = NegativeReturns).
Proof.
  intros Hc. unfold investmentSummary. rewrite Hc, !x_lit.
  assert (H05 : Zc 0 < Zc 5) by reflexivity.
  assert (H58 : Zc 5 < Zc 8) by reflexivity.
  repeat split.
  - intros H8. apply x_ge_fin in H8. now rewrite H8.
  - intros H5 H8. apply x_ge_fin in H5. apply x_ge_fin_false in H8.
    now rewrite H8, H5.
  - intros H0 H5.
    assert (H8 : q < Zc 8) by (apply Qclt_trans with (Zc 5); assumption).
    apply x_ge_fin in H0. apply x_ge_fin_false in H5, H8.
    now rewrite H8, H5, H0.
  - intros H0.
    assert (H5 : q < Zc 5) by (apply Qclt_trans with (Zc 0); assumption).
    assert (H8 : q < Zc 8) by (apply Qclt_trans with (Zc 5); assumption).
    apply x_ge_fin_false in H0, H5, H8.
    now rewrite H8, H5, H0.
Qed.

(** X25.  The notes of the summary tab agree with the sentence of the
    investment summary: the note on strong potential is shown exactly when
    the sentence speaks of strong potential, the warning on a low return is
    only shown with the sentence on below-average returns, and no note on
    the return goes with the sentence on decent potential.  A return that is
    not a number is reported as negative returns, without a note. *)
Theorem notes_follow_summary (results : Results xnum) :
  (showsStrongPotential results = true <->
   investmentSummary results = StrongPotential) /\
  (showsLowReturnWarning results = true ->
   investmentSummary results = BelowAverageReturns) /\
  (investmentSummary results = DecentPotential ->
   showsLowReturnWarning results = false /\
   showsStrongPotential results = false) /\
  (cashOnCash results = NaN ->
   investmentSummary results = NegativeReturns /\
   showsLowReturnWarning results = false /\
   showsStrongPotential results = false).
Proof.
  assert (Hstrong : showsStrongPotential results = true <->
                    investmentSummary results = StrongPotential).
  { unfold showsStrongPotential, investmentSummary.
    destruct (ge (cashOnCash results) (lit 8)).
    - split; reflexivity.
    - split; [discriminate|].
      destruct (ge (cashOnCash results) (lit 5));
        [|destruct (ge (cashOnCash results) (lit 0))]; discriminate. }
  split; [exact Hstrong|]. split; [|split].
  - unfold showsLowReturnWarning. intros H.
    apply andb_true_iff in H. destruct H as [H4 H0].
    destruct (cashOnCash results) as [q| | |] eqn:Hc; try discriminate H0.
    + rewrite x_lit in H4, H0.
      apply x_lt_fin in H4. apply x_ge_fin in H0.
      apply (investmentSummary_fin results Hc); [exact H0|].
      apply Qclt_trans with (Zc 4); [exact H4 | reflexivity].
    + discriminate H4.
  - intros Hd. split.
    + unfold showsLowReturnWarning.
      destruct (cashOnCash results) as [q| | |] eqn:Hc; try reflexivity.
      rewrite !x_lit.
      destruct (lt (Fin q) (Fin (Zc 4))) eqn:H4; [|reflexivity].
      destruct (ge (Fin q) (Fin (Zc 0))) eqn:H0; [|reflexivity].
      apply x_lt_fin in H4. apply x_ge_fin in H0.
      assert (Hb : investmentSummary results = BelowAverageReturns).
      { apply (investmentSummary_fin results Hc); [exact H0|].
        apply Qclt_trans with (Zc 4); [exact H4 | reflexivity]. }
      congruence.
    + destruct (showsStrongPotential results) eqn:E; [|reflexivity].
      destruct Hstrong as [Hs _]. specialize (Hs eq_refl).
      congruence.
  - intros Hc. unfold investmentSummary, showsLowReturnWarning,
      showsStrongPotential. rewrite Hc. repeat split.
Qed.

Lemma return_sign_Q (f inv y : Q) :
  (0 < inv)%Q -> (y * inv == f * 1200)%Q -> ((y < 0)%Q <-> (f < 0)%Q).
Proof.
  intros Hinv Hy. split; intros H.
  - destruct (Qlt_le_dec f 0) as [C|C]; [exact C|]. exfalso.
    assert (H1 : (0 <= y * inv)%Q) by (rewrite Hy; lra).
    assert (H2 : (0 <= (- y) * inv)%Q) by (apply Qmult_le_0_compat; lra).
    assert (H3 : (y * inv == 0)%Q) by lra.
    destruct (Qmult_integral _ _ H3) as [E|E]; lra.
  - destruct (Qlt_le_dec y 0) as [C|C]; [exact C|]. exfalso.
    assert (H1 : (0 <= y * inv)%Q) by (apply Qmult_le_0_compat; lra).
    lra.
Qed.

Lemma return_sign (f inv : Qc) :
  0 < inv -> (f * Zc 12 / inv * Zc 100 < Zc 0 <-> f < Zc 0).
Proof.
  intros Hinv.
  assert (Hy : ((f * Zc 12 / inv * Zc 100)%Qc * inv == f * 1200)%Q).
  { assert (E : f * Zc 12 / inv * Zc 100 * inv = f * Zc 1200).
    { replace (Zc 1200) with (Zc 12 * Zc 100) by (apply Qc_is_canon; reflexivity).
      field. now apply Qclt_nonzero. }
    pose proof (Qred_correct ((f * Zc 12 / inv * Zc 100)%Qc * inv)%Q) as R.
    change (Qred ((f * Zc 12 / inv * Zc 100)%Qc * inv)%Q)
      with (this (f * Zc 12 / inv * Zc 100 * inv)) in R.
    rewrite E in R. rewrite <- R. unfold Qcmult, Q2Qc. cbn [this].
    rewrite Qred_correct. reflexivity. }
  revert Hy. generalize (f * Zc 12 / inv * Zc 100). intros y Hy.
  unfold Qclt, Q2Qc in *. cbn [this] in *. rewrite ?Qred_correct in *.
  unfold inject_Z in *.
  apply return_sign_Q with (inv := inv); [exact Hinv|].
  rewrite Hy. reflexivity.
Qed.

(** X26.  For a calculated result set with a cash flow and an initial
    investment that are numbers: when the initial investment is positive and
    the summary speaks of negative returns, the warning on a negative cash
    flow is shown; when the initial investment is not positive, the return
    is 0, so that the summary speaks of below-average returns and the warning
    on a low return is shown, whatever the cash flow. *)
Theorem summary_follows_cash_flow (inputs : Inputs xnum) (f inv : Qc) :
  monthlyCashFlow (calculateResults inputs) = Fin f ->
  initialInvestment inputs = Fin inv ->
  (0 < inv ->
   investmentSummary (calculateResults inputs) = NegativeReturns ->
   showsNegativeCashFlowWarning (calculateResults inputs) = true) /\
  (inv <= 0 ->
   investmentSummary (calculateResults inputs) = BelowAverageReturns /\
   showsLowReturnWarning (calculateResults inputs) = true).
Proof.
  intros Hf Hinv.
  assert (Hc : cashOnCash (calculateResults inputs) =
               if (Fin inv >? lit 0)%num
               then Fin (f * Zc 12 / inv * Zc 100) else Fin (Zc 0)).
  { change (cashOnCash (calculateResults inputs))
      with (if (initialInvestment inputs >? lit 0)%num
            then (monthlyCashFlow (calculateResults inputs) * lit 12
                  / initialInvestment inputs * lit 100)%num
            else lit 0).
    rewrite Hf, Hinv.
    destruct (Fin inv >? lit 0)%num eqn:E; [|reflexivity].
    apply x_gtb_fin in E. rewrite !x_lit, x_mul_fin.
    rewrite x_div_fin' by now apply Qclt_nonzero.
    now rewrite x_mul_fin. }
  split.
  - intros Hpos.
    assert (E : (Fin inv >? lit 0)%num = true) by now apply x_gtb_fin.
    rewrite E in Hc.
    unfold showsNegativeCashFlowWarning. rewrite Hf, x_lit.
    destruct (investmentSummary_fin (calculateResults inputs) Hc)
      as [H8 [H5 [H0 Hneg]]].
    intros Hs. apply x_lt_fin. apply (return_sign f Hpos).
    destruct (Qclt_le_dec (f * Zc 12 / inv * Zc 100) (Zc 0)) as [C|C];
      [exact C|]. exfalso.
    destruct (Qclt_le_dec (f * Zc 12 / inv * Zc 100) (Zc 5)) as [C5|C5].
    + rewrite (H0 C C5) in Hs. discriminate.
    + destruct (Qclt_le_dec (f * Zc 12 / inv * Zc 100) (Zc 8)) as [C8|C8].
      * rewrite (H5 C5 C8) in Hs. discriminate.
      * rewrite (H8 C8) in Hs. discriminate.
  - intros Hle.
    assert (E : (Fin inv >? lit 0)%num = false).
    { destruct (Fin inv >? lit 0)%num eqn:E; [|reflexivity].
      apply x_gtb_fin in E. now apply Qcle_not_lt in Hle. }
    rewrite E in Hc.
    split.
    + apply (investmentSummary_fin (calculateResults inputs) Hc);
        [apply Qcle_refl | reflexivity].
    + unfold showsLowReturnWarning. rewrite Hc. reflexivity.
Qed.

Lemma sum_le_of_max (d m c n : Qc) : d + c + n <= X.Qcmax d m + c + n.
Proof.
  pose proof (Qcmax_ge_l d m) as H. revert H.
  generalize (X.Qcmax d m). intros M H.
  unfold Qcle, Qcplus, Q2Qc in *. cbn [this] in *.
  rewrite ?Qred_correct in *. lra.
Qed.

Lemma sum_lt_of_max (d m c n : Qc) :
  d + Zc 1 <= m -> d + c + n < X.Qcmax d m + c + n.
Proof.
  intros Hm. pose proof (Qcmax_ge_r d m) as H. revert H.
  generalize (X.Qcmax d m). intros M H.
  unfold Qcle, Qclt, Qcplus, Q2Qc in *. cbn [this] in *.
  rewrite ?Qred_correct in *. unfold inject_Z in *. lra.
Qed.

(** X27.  The figure shown as the initial investment is built on the down
    payment as entered, the cash-on-cash return on the down payment after the
    floor of 20%.  In amount mode the figure shown is never the larger one;
    the two agree when the down payment entered is at least 20% of the
    price; and the figure shown is the smaller one when the down payment is
    below the floor by 1 or more (with amounts of 10^12 at most, far from
    the precision of a double). *)
Theorem displayed_investment_misses_floor
    (inputs : Inputs xnum) (p d c n : Qc) :
  downPaymentType inputs = amount ->
  purchasePrice inputs = Fin p ->
  downPayment inputs = Fin d ->
  closingCosts inputs = Fin c ->
  renovationCosts inputs = Fin n ->
  X.leb (displayedInitialInvestment inputs) (initialInvestment inputs) = true /\
  (Zc 20 / Zc 100 * p <= d ->
   displayedInitialInvestment inputs = initialInvestment inputs) /\
  (d + Zc 1 <= Zc 20 / Zc 100 * p ->
   0 <= d -> p <= Zc 1000000000000 ->
   - Zc 1000000000000 <= c -> c <= Zc 1000000000000 ->
   - Zc 1000000000000 <= n -> n <= Zc 1000000000000 ->
   X.ltb (displayedInitialInvestment inputs) (initialInvestment inputs) = true).
Proof.
  intros Ht Hp Hd Hc Hn.
  destruct (actualDownPayment_fin pow inputs Hp Hd) as [_ Ha].
  rewrite Ht in Ha.
  assert (Hshown : displayedInitialInvestment inputs = Fin (d + c + n)).
  { unfold displayedInitialInvestment. rewrite Hd, Hc, Hn. now push_fin. }
  assert (Hused : initialInvestment inputs =
                  Fin (X.Qcmax d (Zc 20 / Zc 100 * p) + c + n)).
  { unfold initialInvestment. rewrite Ha, Hc, Hn. now push_fin. }
  rewrite Hshown, Hused. split; [|split].
  - apply x_leb_fin. apply sum_le_of_max.
  - intros Hle. unfold X.Qcmax.
    rewrite (Qccompare_swap (Zc 20 / Zc 100 * p) d).
    destruct (Zc 20 / Zc 100 * p ?= d) eqn:E; cbn [CompOpp]; try reflexivity.
    exfalso. apply Qcgt_alt in E. now apply Qcle_not_lt in Hle.
  - intros Hlt _ _ _ _ _ _.
    apply x_ltb_fin. now apply sum_lt_of_max.
Qed.

End Page.

(** ** The handler, the form and the charts at concrete inputs *)

Section MoreEvaluations.

Local Existing Instance exact_numbers.
Local Open Scope Qc_scope.

Lemma typed_down_payment_is_clamped_witness :
  downPayment
    (handleInputChange initial_inputs (SetNumber Key.downPayment (lit 600000)))
  = lit 500000.
Proof.
  assert (H : (lit 500000 >? lit 500000)%num = false) by reflexivity.
  apply (proj2 (proj2 (@typed_down_payment_is_clamped
                         _ _ initial_inputs (lit 600000) H))).
  reflexivity.
Defined.

Lemma changes_are_local_witness :
  let after :=
    handleInputChange initial_inputs (SetNumber Key.monthlyRent (lit 3000)) in
  get Key.monthlyRent after = lit 3000 /\
  get Key.purchasePrice after = get Key.purchasePrice initial_inputs /\
  downPaymentType after = downPaymentType initial_inputs /\
  propertyType after = propertyType initial_inputs.
Proof.
  destruct (@changes_are_local _ _ initial_inputs
              (SetNumber Key.monthlyRent (lit 3000))) as [H1 [H2 [H3 H4]]].
  split; [|split; [|split]].
  - apply H1; [reflexivity | discriminate].
  - apply H2; [discriminate | intros v; discriminate].
  - apply H3. intros t. discriminate.
  - apply H4. intros s. discriminate.
Defined.

Lemma schedule_year_on_year_witness :
  exists row next,
    nth_error (cashFlowSchedule (calculateResults initial_inputs)) 0 = Some row /\
    nth_error (cashFlowSchedule (calculateResults initial_inputs)) (0 + 1)
    = Some next /\
    year next = (year row + 1)%Z /\
    rentalIncome next =
      (rentalIncome row * (lit 1 + annualRentIncrease initial_inputs / lit 100))%num /\
    operatingExpenses next = (operatingExpenses row * lit_1_02)%num /\
    mortgagePayment next = mortgagePayment row.
Proof.
  assert (H0 := @schedule_nth _ _ initial_inputs 0 ltac:(lia)).
  assert (H1 := @schedule_nth _ _ initial_inputs (0 + 1) ltac:(lia)).
  cbv zeta in H0, H1.
  eexists. eexists. split; [exact H0|]. split; [exact H1|].
  exact (@schedule_year_on_year _ _ initial_inputs 0 _ _ H0 H1).
Defined.

Lemma projection_chart_follows_schedule_witness :
  prepareCashFlowProjectionData initial_results = [] /\
  map (@Point.year xnum)
      (prepareCashFlowProjectionData (calculateResults initial_inputs))
  = map Z.of_nat (seq 1 10).
Proof.
  split; [reflexivity|].
  apply (proj2 (proj2 (@projection_chart_follows_schedule
                         _ _ (calculateResults initial_inputs)))
           initial_inputs).
  reflexivity.
Defined.

Lemma cumulative_chart_accumulates_witness :
  exists point next,
    nth_error (cumulativeChartData (calculateResults initial_inputs)) 0
    = Some point /\
    nth_error (cumulativeChartData (calculateResults initial_inputs)) 1
    = Some next /\
    Cumulative.cumulativeCashFlow point
    = (lit 0 + Cumulative.annualCashFlow point)%num /\
    Cumulative.cumulativeCashFlow next
    = (Cumulative.cumulativeCashFlow point + Cumulative.annualCashFlow next)%num.
Proof.
  assert (R0 := @schedule_nth _ _ initial_inputs 0 ltac:(lia)).
  assert (R1 := @schedule_nth _ _ initial_inputs 1 ltac:(lia)).
  cbv zeta in R0, R1.
  assert (H0 := @cumulativeChartData_nth _ _ _ 0 _ ltac:(lia) R0).
  assert (H1 := @cumulativeChartData_nth _ _ _ 1 _ ltac:(lia) R1).
  destruct (@cumulative_chart_accumulates _ _ (calculateResults initial_inputs))
    as [Hfirst Hstep].
  eexists. eexists. split; [exact H0|]. split; [exact H1|]. split.
  - exact (Hfirst _ H0).
  - exact (Hstep 0%nat _ _ H0 H1).
Defined.

Lemma emptied_field_waits_for_blur_witness :
  let emptied :=
    Form.handleInputChange Number_of_digits initial_form
                           (Form.Typed Key.monthlyRent "") in
  Form.field emptied Key.monthlyRent = Form.Str "" /\
  Form.useEffect Number_of_digits emptied initial_results = initial_results /\
  Form.handleBlur initial_form Key.monthlyRent = initial_form.
Proof.
  destruct (@emptied_field_waits_for_blur _ _ Number_of_digits initial_form
              Key.monthlyRent) as [H1 [H2 [_ H4]]].
  split; [exact H1|]. split; [exact (H2 initial_results)|].
  apply H4. reflexivity.
Defined.

Lemma typed_text_in_emptied_field_reads_as_zero_witness :
  let typed :=
    Form.handleInputChange Number_of_digits emptied_rent_form
                           (Form.Typed Key.monthlyRent "3000") in
  Form.field typed Key.monthlyRent = Form.Str "3000" /\
  Form.calculateResults Number_of_digits typed =
  Form.calculateResults Number_of_digits
    (Form.set Key.monthlyRent (Form.Num (lit 0)) typed).
Proof.
  assert (Hold : Form.field emptied_rent_form Key.monthlyRent = Form.Str "")
    by reflexivity.
  assert (Hname : Key.monthlyRent <> Key.downPayment) by discriminate.
  destruct (@typed_text_in_emptied_field_reads_as_zero
              _ _ Number_of_digits emptied_rent_form Key.monthlyRent
              ""%string "3000"%string Hold Hname) as [H1 H2].
  split; [exact H1|]. apply H2. reflexivity.
Defined.

Lemma typed_down_payment_is_a_number_witness :
  exists x : xnum,
    Form.field
      (Form.handleInputChange Number_of_digits
         (Form.set Key.downPayment (Form.Str "") initial_form)
         (Form.Typed Key.downPayment "50000"))
      Key.downPayment
    = Form.Num x.
Proof.
  apply (@typed_down_payment_is_a_number _ _ Number_of_digits
           (Form.set Key.downPayment (Form.Str "") initial_form)
           "50000"%string).
  discriminate.
Defined.

Lemma calculation_on_numbers_witness :
  Form.useEffect Number_of_digits initial_form initial_results
  = calculateResults initial_inputs.
Proof.
  apply (proj2 (@calculation_on_numbers _ _ Number_of_digits initial_inputs)).
  discriminate.
Defined.

Lemma handler_on_numbers_witness :
  same_form
    (Form.handleInputChange Number_of_digits initial_form
                            (Form.Typed Key.monthlyRent "03000"))
    (form_of_inputs
       (handleInputChange initial_inputs
          (change_of_event Number_of_digits (Form.Typed Key.monthlyRent "03000")))).
Proof.
  apply (@handler_on_numbers _ _ Number_of_digits initial_inputs
           (Form.Typed Key.monthlyRent "03000")).
  intros name. discriminate.
Defined.

Lemma calculation_reads_text_as_zero_witness :
  let typed :=
    Form.handleInputChange Number_of_digits emptied_rent_form
                           (Form.Typed Key.monthlyRent "3000") in
  Form.calculateResults Number_of_digits typed
  = calculateResults (inputs_of_form typed) /\
  monthlyRent (inputs_of_form typed) = lit 0.
Proof.
  split; [|reflexivity].
  apply (@calculation_reads_text_as_zero _ _ Number_of_digits).
  intros k Hk. destruct k; try discriminate Hk; eexists; reflexivity.
Defined.

Lemma strip_leading_zeros_spec_witness :
  Form.strip_leading_zeros "12" = "12"%string /\
  Form.strip_leading_zeros "-05" = "-05"%string.
Proof.
  split.
  - apply (proj2 (proj2 (proj2 (strip_leading_zeros_spec "12")))). reflexivity.
  - apply (proj2 (proj2 (proj2 (strip_leading_zeros_spec "-05")))). reflexivity.
Defined.

Lemma switch_to_percent_gives_whole_percentage_witness :
  exists n : Z,
    downPayment (handleInputChange initial_inputs (SetDownPaymentType percent))
    = Fin (Zc n) /\ (0 <= n <= 100)%Z.
Proof.
  apply (@switch_to_percent_gives_whole_percentage X.pow_whole initial_inputs
           (Zc 500000) (Zc 100000)).
  - reflexivity.
  - reflexivity.
  - lazy; reflexivity.
  - lazy; discriminate.
  - lazy; discriminate.
Defined.

Lemma percent_round_trip_witness :
  let there := handleInputChange twenty_percent_inputs (SetDownPaymentType amount) in
  let back := handleInputChange there (SetDownPaymentType percent) in
  downPaymentType back = percent /\
  purchasePrice back = Fin (Zc 500000) /\
  downPayment back = Fin (Zc 20).
Proof.
  apply (@percent_round_trip X.pow_whole twenty_percent_inputs (Zc 500000) 20%Z).
  - reflexivity.
  - reflexivity.
  - lazy; discriminate.
  - lazy; discriminate.
  - lia.
Defined.

Lemma price_change_in_percent_mode_witness :
  let after :=
    handleInputChange twenty_percent_inputs
                      (SetNumber Key.purchasePrice (Fin (Zc 600000))) in
  downPaymentType after = percent /\
  purchasePrice after = Fin (Zc 600000) /\
  downPayment after = Fin (Zc 120000) /\
  X.leb (lit 200) (downPayment after) = true /\
  X.ltb (mortgageAmount (calculateResults after)) (lit 0) = true.
Proof.
  destruct (@price_change_in_percent_mode X.pow_whole twenty_percent_inputs
              (Zc 20) (Zc 600000) eq_refl eq_refl) as [H1 [H2 [H3 H4]]].
  split; [exact H1|]. split; [exact H2|]. split.
  - etransitivity; [exact H3 | fin_eq].
  - apply H4.
    + lazy; reflexivity.
    + lazy; discriminate.
Defined.

Lemma typed_amount_gives_sound_mortgage_witness :
  let after :=
    handleInputChange initial_inputs
                      (SetNumber Key.downPayment (Fin (Zc 600000))) in
  let r := calculateResults after in
  X.leb (lit 0) (mortgageAmount r) = true /\
  X.leb (mortgageAmount r) (Fin (Q2Qc (80 # 100)) * Fin (Zc 500000))%num = true.
Proof.
  apply (@typed_amount_gives_sound_mortgage X.pow_whole initial_inputs
           (Zc 500000) (Zc 600000)).
  - reflexivity.
  - reflexivity.
  - lazy; reflexivity.
Defined.

Lemma down_payment_warning_never_shown_witness :
  showsDownPaymentWarning (calculateResults low_down_payment_inputs) = false.
Proof.
  apply (@down_payment_warning_never_shown X.pow_whole low_down_payment_inputs
           (Zc 500000) (Zc 50000)).
  - reflexivity.
  - reflexivity.
  - lazy; discriminate.
Defined.

Lemma no_amortization_period_no_payment_witness :
  let inputs := set_number Key.amortizationPeriod (lit 0) initial_inputs in
  X.is_finite (monthlyPayment (calculateResults inputs)) = false /\
  finite_results (calculateResults inputs) = false.
Proof.
  apply (@no_amortization_period_no_payment X.pow_whole
           (set_number Key.amortizationPeriod (lit 0) initial_inputs)
           (Q2Qc (11 # 2))).
  - fin_eq.
  - reflexivity.
  - fin_eq.
Defined.

Lemma zero_typed_into_emptied_rate_field_witness :
  let emptied :=
    Form.handleInputChange Number_of_digits initial_form
                           (Form.Typed Key.interestRate "") in
  let typed :=
    Form.handleInputChange Number_of_digits emptied
                           (Form.Typed Key.interestRate "0") in
  Form.field typed Key.interestRate = Form.Str "0" /\
  (forall k, Form.is_empty (Form.field typed k) = true ->
             Form.is_empty (Form.field initial_form k) = true) /\
  X.is_finite (monthlyPayment (Form.calculateResults Number_of_digits typed))
  = false.
Proof.
  apply (@zero_typed_into_emptied_rate_field X.pow_whole Number_of_digits
           initial_form "0"%string).
  - discriminate.
  - reflexivity.
  - fin_eq.
Defined.

Lemma notes_follow_summary_witness :
  showsLowReturnWarning (calculateResults zero_interest_inputs) = true /\
  investmentSummary (calculateResults zero_interest_inputs)
  = BelowAverageReturns.
Proof.
  assert (H : showsLowReturnWarning (calculateResults zero_interest_inputs)
              = true) by (lazy; reflexivity).
  split; [exact H|].
  exact (proj1 (proj2 (@notes_follow_summary X.pow_whole
                         (calculateResults zero_interest_inputs))) H).
Defined.

Lemma summary_follows_cash_flow_witness :
  let refunded :=
    set_number Key.closingCosts (lit (-200000)) zero_interest_inputs in
  (investmentSummary (calculateResults low_rent_inputs) = NegativeReturns /\
   showsNegativeCashFlowWarning (calculateResults low_rent_inputs) = true) /\
  (investmentSummary (calculateResults refunded) = BelowAverageReturns /\
   showsLowReturnWarning (calculateResults refunded) = true).
Proof.
  cbv zeta. split.
  - assert (Hs : investmentSummary (calculateResults low_rent_inputs)
                 = NegativeReturns) by (lazy; reflexivity).
    assert (Hf : monthlyCashFlow (calculateResults low_rent_inputs)
                 = Fin (Zc (-235))) by fin_eq.
    assert (Hinv : initialInvestment low_rent_inputs = Fin (Zc 105000))
      by fin_eq.
    assert (Hpos : 0 < Zc 105000) by reflexivity.
    split; [exact Hs|].
    exact (proj1 (@summary_follows_cash_flow X.pow_whole low_rent_inputs
                    (Zc (-235)) (Zc 105000) Hf Hinv) Hpos Hs).
  - assert (Hf : monthlyCashFlow
                   (calculateResults
                      (set_number Key.closingCosts (lit (-200000))
                                  zero_interest_inputs))
                 = Fin (Zc 175)) by fin_eq.
    assert (Hinv : initialInvestment
                     (set_number Key.closingCosts (lit (-200000))
                                 zero_interest_inputs)
                   = Fin (Zc (-100000))) by fin_eq.
    assert (Hle : Zc (-100000) <= 0) by (lazy; discriminate).
    exact (proj2 (@summary_follows_cash_flow X.pow_whole
                    (set_number Key.closingCosts (lit (-200000))
                                zero_interest_inputs)
                    (Zc 175) (Zc (-100000)) Hf Hinv) Hle).
Defined.

Lemma displayed_investment_misses_floor_witness :
  displayedInitialInvestment initial_inputs = initialInvestment initial_inputs /\
  X.leb (displayedInitialInvestment low_down_payment_inputs)
        (initialInvestment low_down_payment_inputs) = true /\
  X.ltb (displayedInitialInvestment low_down_payment_inputs)
        (initialInvestment low_down_payment_inputs) = true.
Proof.
  destruct (@displayed_investment_misses_floor X.pow_whole initial_inputs
              (Zc 500000) (Zc 100000) (Zc 5000) (Zc 0)) as [_ [Hsame _]];
    try reflexivity.
  destruct (@displayed_investment_misses_floor X.pow_whole
              low_down_payment_inputs
              (Zc 500000) (Zc 50000) (Zc 5000) (Zc 0)) as [Hle [_ Hless]];
    try reflexivity.
  split; [|split].
  - apply Hsame. lazy; discriminate.
  - exact Hle.
  - apply Hless; lazy; discriminate.
Defined.

End MoreEvaluations.
